(** * The CloudFormation stack controller: reconciler, follower and status merge

    A shallow embedding of [controllers/stack_controller.go] (the
    [StackReconciler]) and of the follower source (the [StackFollower]:
    [Receiver], [startFollowing], [stopFollowing], [updateStackStatus],
    [processStack], [Worker]).

    Every call that leaves the process (the Kubernetes client, the
    CloudFormation client and helper, the channel to the follower) is a
    [request] of a small free monad; a run against an [oracle] yields the
    returned value and the log of the calls that were issued, with their
    answers.  Logging ([Log.Info], [Log.Error]) has no effect on control flow
    and is left out. *)

From stdpp Require Import base option list strings gmap fin_maps.

Set Default Proof Using "Type".
Set Warnings "-clear-no-such-hyp".

(** ** Strings *)

(** Go's [strings.Contains s substr]. *)
Fixpoint strings_Contains (s substr : string) : bool :=
  String.prefix substr s ||
  match s with
  | EmptyString => false
  | String _ s' => strings_Contains s' substr
  end.

(** ** Constants of [stack_controller.go] *)

Definition controllerKey : string := "kubernetes.io/controlled-by".
Definition controllerValue : string := "cloudformation.cuppett.com/operator".
Definition legacyFinalizer : string := "finalizer.cloudformation.cuppett.com".
Definition stacksFinalizer : string := "cloudformation.cuppett.com/finalizer".
Definition ownerKey : string := "kubernetes.io/owned-by".

(** ** Errors *)

(** Error values.  The two sentinels are compared by identity in the source
    ([err == ErrStackNotFound]); every other error is known by its [Error()]
    text and by whether [errors.IsNotFound] recognises it. *)
Inductive error : Type :=
| ErrMissingTemplateSpec
| ErrStackNotFound
| OtherError (isNotFound : bool) (text : string).

Global Instance error_eq_dec : EqDecision error.
Proof. solve_decision. Defined.

(** [errors.IsNotFound] of k8s.io/apimachinery. *)
Definition IsNotFound (err : error) : bool :=
  match err with
  | OtherError b _ => b
  | _ => false
  end.

(** Timestamps ([time.Time], [metav1.Time]) are opaque instants. *)
Definition Timestamp : Type := Z.

(** A Go slice: [None] is the nil slice, which [reflect.DeepEqual] tells
    apart from an empty one. *)
Definition slice (A : Type) : Type := option (list A).

(** ** The remote stack ([cfTypes.Stack]) *)

(** The SDK's pointer fields that a described stack always carries (the
    identifier, the creation time, the key and the value of a tag or of an
    output) are plain values; the ones that may be absent are options. *)
Record cfTag : Type := { tag_Key : string; tag_Value : string }.

Global Instance cfTag_eq_dec : EqDecision cfTag.
Proof. solve_decision. Defined.

Record cfOutput : Type := { OutputKey : string; OutputValue : string }.
Record cfParameter : Type := { ParameterKey : string; ParameterValue : string }.

Record cfStack : Type := {
  cfs_StackId : string;
  cfs_StackStatus : string;
  cfs_CreationTime : Timestamp;
  cfs_LastUpdatedTime : option Timestamp;
  cfs_Outputs : list cfOutput;
  cfs_RoleARN : option string;
  cfs_Tags : list cfTag
}.

Record NamespacedName : Type := { nn_Namespace : string; nn_Name : string }.

Record StackSpec : Type := {
  spec_Template : string;
  spec_TemplateUrl : string;
  spec_RoleARN : string;
  spec_NotificationArns : list string;
  spec_OnFailure : string;
  spec_Parameters : gmap string string;
  spec_Tags : gmap string string
}.

(** Inputs of the three mutating CloudFormation calls. *)
Record CreateStackInput : Type := {
  ci_Capabilities : list string;
  ci_StackName : string;
  ci_Parameters : list cfParameter;
  ci_Tags : list cfTag;
  ci_RoleARN : option string;
  ci_NotificationARNs : list string;
  ci_TemplateBody : option string;
  ci_TemplateURL : option string;
  ci_OnFailure : option string
}.

Record UpdateStackInput : Type := {
  ui_Capabilities : list string;
  ui_StackName : string;
  ui_Parameters : list cfParameter;
  ui_Tags : list cfTag;
  ui_RoleARN : option string;
  ui_NotificationARNs : list string;
  ui_TemplateBody : option string;
  ui_TemplateURL : option string
}.

Record DeleteStackInput : Type := { di_StackName : string }.

(** [ctrl.Result]; the reconciler only ever returns the zero value. *)
Record Result : Type := { Requeue : bool }.
Definition ctrl_Result : Result := {| Requeue := false |}.

(** The part of [CloudFormationHelper] that is a pure function of its
    argument; its source is not part of this development, so the predicate is
    a field that every statement quantifies over. *)
Record CloudFormationHelper : Type := {
  StackInTerminalState : string → bool
}.

Section Controller.

(** The element type of the resource summary list is declared with the API
    types; only its structural equality is used. *)
Context {StackResource : Type} `{!EqDecision StackResource}.

(** The [Error()] text of [ErrStackNotFound], declared with the helper. *)
Variable ErrStackNotFound_text : string.

Definition Error (err : error) : string :=
  match err with
  | ErrMissingTemplateSpec => "template or templateUrl must be provided"
  | ErrStackNotFound => ErrStackNotFound_text
  | OtherError _ text => text
  end.

(** ** The Stack resource *)

Record StackStatus : Type := {
  status_StackID : string;
  status_StackStatus : string;
  status_CreatedTime : option Timestamp;
  status_UpdatedTime : option Timestamp;
  status_Outputs : option (gmap string string);
  status_RoleARN : string;
  status_Resources : slice StackResource
}.

Record Stack : Type := {
  Name : string;
  Namespace : string;
  UID : string;
  DeletionTimestamp : option Timestamp;
  Finalizers : list string;
  Spec : StackSpec;
  Status : StackStatus
}.

Definition set_Finalizers (fs : list string) (o : Stack) : Stack :=
  {| Name := Name o; Namespace := Namespace o; UID := UID o;
     DeletionTimestamp := DeletionTimestamp o; Finalizers := fs;
     Spec := Spec o; Status := Status o |}.

Definition set_Status (st : StackStatus) (o : Stack) : Stack :=
  {| Name := Name o; Namespace := Namespace o; UID := UID o;
     DeletionTimestamp := DeletionTimestamp o; Finalizers := Finalizers o;
     Spec := Spec o; Status := st |}.

Definition set_StackID (id : string) (st : StackStatus) : StackStatus :=
  {| status_StackID := id; status_StackStatus := status_StackStatus st;
     status_CreatedTime := status_CreatedTime st;
     status_UpdatedTime := status_UpdatedTime st;
     status_Outputs := status_Outputs st; status_RoleARN := status_RoleARN st;
     status_Resources := status_Resources st |}.

Definition set_StackStatus (s : string) (st : StackStatus) : StackStatus :=
  {| status_StackID := status_StackID st; status_StackStatus := s;
     status_CreatedTime := status_CreatedTime st;
     status_UpdatedTime := status_UpdatedTime st;
     status_Outputs := status_Outputs st; status_RoleARN := status_RoleARN st;
     status_Resources := status_Resources st |}.

Definition set_CreatedTime (t : option Timestamp) (st : StackStatus) : StackStatus :=
  {| status_StackID := status_StackID st;
     status_StackStatus := status_StackStatus st;
     status_CreatedTime := t; status_UpdatedTime := status_UpdatedTime st;
     status_Outputs := status_Outputs st; status_RoleARN := status_RoleARN st;
     status_Resources := status_Resources st |}.

Definition set_UpdatedTime (t : option Timestamp) (st : StackStatus) : StackStatus :=
  {| status_StackID := status_StackID st;
     status_StackStatus := status_StackStatus st;
     status_CreatedTime := status_CreatedTime st; status_UpdatedTime := t;
     status_Outputs := status_Outputs st; status_RoleARN := status_RoleARN st;
     status_Resources := status_Resources st |}.

Definition set_Outputs (m : option (gmap string string)) (st : StackStatus)
  : StackStatus :=
  {| status_StackID := status_StackID st;
     status_StackStatus := status_StackStatus st;
     status_CreatedTime := status_CreatedTime st;
     status_UpdatedTime := status_UpdatedTime st;
     status_Outputs := m; status_RoleARN := status_RoleARN st;
     status_Resources := status_Resources st |}.

Definition set_RoleARN (a : string) (st : StackStatus) : StackStatus :=
  {| status_StackID := status_StackID st;
     status_StackStatus := status_StackStatus st;
     status_CreatedTime := status_CreatedTime st;
     status_UpdatedTime := status_UpdatedTime st;
     status_Outputs := status_Outputs st; status_RoleARN := a;
     status_Resources := status_Resources st |}.

Definition set_Resources (rs : slice StackResource) (st : StackStatus)
  : StackStatus :=
  {| status_StackID := status_StackID st;
     status_StackStatus := status_StackStatus st;
     status_CreatedTime := status_CreatedTime st;
     status_UpdatedTime := status_UpdatedTime st;
     status_Outputs := status_Outputs st; status_RoleARN := status_RoleARN st;
     status_Resources := rs |}.

(** [controllerutil.ContainsFinalizer], [AddFinalizer], [RemoveFinalizer] of
    controller-runtime, on the finalizer list of the object. *)
Definition ContainsFinalizer (o : Stack) (finalizer : string) : bool :=
  bool_decide (finalizer ∈ Finalizers o).

Definition AddFinalizer (o : Stack) (finalizer : string) : Stack :=
  if ContainsFinalizer o finalizer then o
  else set_Finalizers (Finalizers o ++ [finalizer]) o.

Definition RemoveFinalizer (o : Stack) (finalizer : string) : Stack :=
  set_Finalizers (filter (λ f, f ≠ finalizer) (Finalizers o)) o.

(** ** Calls and programs *)

(** The calls.  The methods of the helper take the context and are calls like
    those of the two clients; [StackFollower.UpdateStackStatus], which update
    logic calls, is the exported status refresh of the follower, and its
    answer is the environment's. *)
Inductive request : Type :=
| KubeGet (name : NamespacedName)            (* Client.Get *)
| KubeUpdate (o : Stack)                     (* Client.Update *)
| KubeStatusUpdate (o : Stack)               (* Client.Status().Update *)
| HelperGetStack (o : Stack)                 (* CloudFormationHelper.GetStack *)
| HelperGetStackResources (stackID : string) (* CloudFormationHelper.GetStackResources *)
| HelperGetStackName (o : Stack) (useID : bool)
| CfCreateStack (input : CreateStackInput)   (* CloudFormation.CreateStack *)
| CfUpdateStack (input : UpdateStackInput)   (* CloudFormation.UpdateStack *)
| CfDeleteStack (input : DeleteStackInput)   (* CloudFormation.DeleteStack *)
| ChanSend (o : Stack)                       (* StackFollower.SubmissionChannel <- o *)
| FollowerUpdateStackStatus (o : Stack).     (* StackFollower.UpdateStackStatus *)

(** What each call hands back: a value or an error, or the error alone
    ([None] is Go's nil error).  [UpdateStackStatus] works on the object it is
    given, so its answer carries the object as it leaves it. *)
Definition response (q : request) : Type :=
  match q with
  | KubeGet _ => (Stack + error)%type
  | KubeUpdate _ => option error
  | KubeStatusUpdate _ => option error
  | HelperGetStack _ => (cfStack + error)%type
  | HelperGetStackResources _ => (slice StackResource + error)%type
  | HelperGetStackName _ _ => string
  | CfCreateStack _ => (string + error)%type
  | CfUpdateStack _ => option error
  | CfDeleteStack _ => option error
  | ChanSend _ => unit
  | FollowerUpdateStackStatus _ => (option error * Stack)%type
  end.

Inductive prog (A : Type) : Type :=
| Ret (a : A)
| Call (q : request) (k : response q → prog A).
Arguments Ret {A} a.
Arguments Call {A} q k.

Fixpoint bind {A B : Type} (p : prog A) (f : A → prog B) : prog B :=
  match p with
  | Ret a => f a
  | Call q k => Call q (λ a, bind (k a) f)
  end.

Definition call (q : request) : prog (response q) := Call q Ret.

(** The programs form a monad; stdpp's [x ← p; k] is its bind. *)
#[local] Instance prog_ret : MRet prog := @Ret.
#[local] Instance prog_bind : MBind prog := λ A B f p, bind p f.

(** One issued call with its answer. *)
Inductive event : Type := Ev (q : request) (a : response q).

Definition ev_request (e : event) : request :=
  match e with Ev q _ => q end.

(** The environment: the answer to a call may depend on everything that
    happened before it. *)
Definition oracle : Type := list event → ∀ q : request, response q.

(** [run o h p]: the value of [p] and the calls it issues, in order, when it
    starts after history [h]. *)
Fixpoint run {A : Type} (o : oracle) (h : list event) (p : prog A)
  : A * list event :=
  match p with
  | Ret a => (a, [])
  | Call q k =>
      let e := Ev q (o h q) in
      let '(a, t) := run o (h ++ [e]) (k (o h q)) in
      (a, e :: t)
  end.

(** ** The reconciler ([stack_controller.go]) *)

Record StackReconciler : Type := {
  r_CloudFormationHelper : CloudFormationHelper;
  DefaultTags : gmap string string;
  DefaultCapabilities : list string;
  DryRun : bool
}.

(** [StackLoop]: the resource under reconciliation and the remote stack
    fetched during this pass ([None] is the nil pointer). *)
Record StackLoop : Type := {
  req : NamespacedName;
  instance : Stack;
  stack : option cfStack
}.

Definition set_instance (o : Stack) (loop : StackLoop) : StackLoop :=
  {| req := req loop; instance := o; stack := stack loop |}.

Definition set_stack (s : option cfStack) (loop : StackLoop) : StackLoop :=
  {| req := req loop; instance := instance loop; stack := s |}.

Definition getStack (r : StackReconciler) (loop : StackLoop) (noCache : bool)
  : prog ((cfStack + error) * StackLoop) :=
  match (if noCache then None else stack loop) with
  | Some s => Ret (inl s, loop)
  | None =>
      res ← call (HelperGetStack (instance loop));
      match res with
      | inr err =>
          let loop := set_stack None loop in
          if strings_Contains (Error err) "does not exist"
          then Ret (inr ErrStackNotFound, loop)
          else Ret (inr err, loop)
      | inl s => Ret (inl s, set_stack (Some s) loop)
      end
  end.

Definition stackExists (r : StackReconciler) (loop : StackLoop)
  : prog ((bool * option error) * StackLoop) :=
  '(res, loop) ← getStack r loop false;
  match res with
  | inr err =>
      if bool_decide (err = ErrStackNotFound) then Ret ((false, None), loop)
      else Ret ((false, Some err), loop)
  | inl s =>
      if bool_decide (cfs_StackStatus s = "DELETE_COMPLETE")
      then Ret ((false, None), loop)
      else Ret ((true, None), loop)
  end.

(** The loop over [cfs.Tags] that returns at the first match. *)
Fixpoint hasControllerTag (tags : list cfTag) : bool :=
  match tags with
  | [] => false
  | tag :: tags' =>
      if bool_decide (tag_Key tag = controllerKey)
         && bool_decide (tag_Value tag = controllerValue)
      then true
      else hasControllerTag tags'
  end.

Definition hasOwnership (r : StackReconciler) (loop : StackLoop)
  : prog ((bool * option error) * StackLoop) :=
  '((exists_, err), loop) ← stackExists r loop;
  match err with
  | Some e => Ret ((false, Some e), loop)
  | None =>
      if negb exists_ then Ret ((true, None), loop)
      else
        '(res, loop) ← getStack r loop false;
        match res with
        | inr e => Ret ((false, Some e), loop)
        | inl cfs => Ret ((hasControllerTag (cfs_Tags cfs), None), loop)
        end
  end.

(** The order in which Go ranges over a map is unspecified; the model takes
    the order of [map_to_list]. *)
Definition stackParameters (r : StackReconciler) (loop : StackLoop)
  : list cfParameter :=
  (λ kv, {| ParameterKey := kv.1; ParameterValue := kv.2 |})
    <$> map_to_list (spec_Parameters (Spec (instance loop))).

Definition stackTags (r : StackReconciler) (loop : StackLoop)
  : list cfTag * option error :=
  let tags :=
    [ {| tag_Key := controllerKey; tag_Value := controllerValue |};
      {| tag_Key := ownerKey; tag_Value := UID (instance loop) |} ] in
  let tags := tags ++
    ((λ kv, {| tag_Key := kv.1; tag_Value := kv.2 |})
       <$> map_to_list (DefaultTags r)) in
  let tags := tags ++
    ((λ kv, {| tag_Key := kv.1; tag_Value := kv.2 |})
       <$> map_to_list (spec_Tags (Spec (instance loop)))) in
  (tags, None).

(** The [CreateStackInput] as it stands when [CreateStack] is called. *)
Definition createStackInput (r : StackReconciler) (loop : StackLoop)
    (stackName : string) (tags : list cfTag) : CreateStackInput :=
  let spec := Spec (instance loop) in
  {| ci_Capabilities := DefaultCapabilities r;
     ci_StackName := stackName;
     ci_Parameters := stackParameters r loop;
     ci_Tags := tags;
     ci_RoleARN :=
       if bool_decide (spec_RoleARN spec ≠ "") then Some (spec_RoleARN spec)
       else None;
     ci_NotificationARNs := spec_NotificationArns spec;
     ci_TemplateBody :=
       if bool_decide (spec_Template spec ≠ "") then Some (spec_Template spec)
       else None;
     ci_TemplateURL :=
       if bool_decide (spec_Template spec ≠ "") then None
       else Some (spec_TemplateUrl spec);
     ci_OnFailure :=
       if bool_decide (spec_OnFailure spec ≠ "") then Some (spec_OnFailure spec)
       else None |}.

Definition createStack (r : StackReconciler) (loop : StackLoop)
  : prog (option error * StackLoop) :=
  if DryRun r then Ret (None, loop)
  else
    let '(tags, err) := stackTags r loop in
    match err with
    | Some e => Ret (Some e, loop)
    | None =>
        stackName ← call (HelperGetStackName (instance loop) false);
        if bool_decide (spec_Template (Spec (instance loop)) = "")
           && bool_decide (spec_TemplateUrl (Spec (instance loop)) = "")
        then Ret (Some ErrMissingTemplateSpec, loop)
        else
          output ← call (CfCreateStack (createStackInput r loop stackName tags));
          match output with
          | inr e => Ret (Some e, loop)
          | inl stackId =>
              let loop :=
                set_instance
                  (set_Status (set_StackID stackId (Status (instance loop)))
                     (instance loop)) loop in
              _ ← call (ChanSend (instance loop));
              Ret (None, loop)
          end
    end.

(** The [UpdateStackInput] as it stands when [UpdateStack] is called. *)
Definition updateStackInput (r : StackReconciler) (loop : StackLoop)
    (stackName : string) (tags : list cfTag) : UpdateStackInput :=
  let spec := Spec (instance loop) in
  {| ui_Capabilities := DefaultCapabilities r;
     ui_StackName := stackName;
     ui_Parameters := stackParameters r loop;
     ui_Tags := tags;
     ui_RoleARN :=
       if bool_decide (spec_RoleARN spec ≠ "") then Some (spec_RoleARN spec)
       else None;
     ui_NotificationARNs := spec_NotificationArns spec;
     ui_TemplateBody :=
       if bool_decide (spec_Template spec ≠ "") then Some (spec_Template spec)
       else None;
     ui_TemplateURL :=
       if bool_decide (spec_Template spec ≠ "") then None
       else Some (spec_TemplateUrl spec) |}.

Definition updateStack (r : StackReconciler) (loop : StackLoop)
  : prog (option error * StackLoop) :=
  if DryRun r then Ret (None, loop)
  else
    let '(tags, err) := stackTags r loop in
    match err with
    | Some e => Ret (Some e, loop)
    | None =>
        stackName ← call (HelperGetStackName (instance loop) true);
        if bool_decide (spec_Template (Spec (instance loop)) = "")
           && bool_decide (spec_TemplateUrl (Spec (instance loop)) = "")
        then Ret (Some ErrMissingTemplateSpec, loop)
        else
          res ← call (CfUpdateStack (updateStackInput r loop stackName tags));
          match res with
          | Some err =>
              if strings_Contains (Error err) "No updates are to be performed."
              then
                '(err, o) ← call (FollowerUpdateStackStatus (instance loop));
                Ret (err, set_instance o loop)
              else if strings_Contains (Error err) "does not exist"
              then createStack r loop
              else Ret (Some err, loop)
          | None =>
              _ ← call (ChanSend (instance loop));
              Ret (None, loop)
          end
    end.

Definition deleteStack (r : StackReconciler) (loop : StackLoop)
  : prog (option error * StackLoop) :=
  if DryRun r then Ret (None, loop)
  else
    '((owned, err), loop) ← hasOwnership r loop;
    match err with
    | Some e => Ret (Some e, loop)
    | None =>
        if negb owned then Ret (None, loop)
        else
          stackName ← call (HelperGetStackName (instance loop) true);
          res ← call (CfDeleteStack {| di_StackName := stackName |});
          match res with
          | Some e => Ret (Some e, loop)
          | None =>
              _ ← call (ChanSend (instance loop));
              Ret (None, loop)
          end
    end.

(** [loop.stack.StackStatus], read by [Reconcile] only after [stackExists]
    answered true, when the pointer is set ([stackExists_true_stack]). *)
Definition loop_StackStatus (loop : StackLoop) : string :=
  match stack loop with
  | Some s => cfs_StackStatus s
  | None => ""
  end.

Definition Reconcile (r : StackReconciler) (request_ : NamespacedName)
  : prog (Result * option error) :=
  got ← call (KubeGet request_);
  match got with
  | inr err =>
      if IsNotFound err then Ret (ctrl_Result, None)
      else Ret (ctrl_Result, Some err)
  | inl o =>
      let loop := {| req := request_; instance := o; stack := None |} in
      if bool_decide (is_Some (DeletionTimestamp (instance loop))) then
        if ContainsFinalizer (instance loop) stacksFinalizer
           || ContainsFinalizer (instance loop) legacyFinalizer
        then
          if bool_decide (status_StackStatus (Status (instance loop)) = "DELETE_COMPLETE")
             || bool_decide (status_StackStatus (Status (instance loop)) = "")
          then
            let o :=
              RemoveFinalizer (RemoveFinalizer (instance loop) stacksFinalizer)
                legacyFinalizer in
            err ← call (KubeUpdate o);
            match err with
            | Some e => Ret (ctrl_Result, Some e)
            | None => Ret (ctrl_Result, None)
            end
          else
            '(err, loop) ← deleteStack r loop;
            match err with
            | Some e => Ret (ctrl_Result, Some e)
            | None => Ret (ctrl_Result, None)
            end
        else Ret (ctrl_Result, None)
      else if negb (ContainsFinalizer (instance loop) stacksFinalizer) then
        err ← call (KubeUpdate (AddFinalizer (instance loop) stacksFinalizer));
        Ret (ctrl_Result, err)
      else
        '((exists_, err), loop) ← stackExists r loop;
        match err with
        | Some e => Ret (ctrl_Result, Some e)
        | None =>
            if exists_ : bool then
              '((ownership, _), loop) ← hasOwnership r loop;
              if ownership : bool then
                if negb (StackInTerminalState (r_CloudFormationHelper r)
                           (loop_StackStatus loop))
                then
                  _ ← call (ChanSend (instance loop));
                  Ret (ctrl_Result, None)
                else
                  '(err, _) ← updateStack r loop;
                  Ret (ctrl_Result, err)
              else
                '(err, _) ← createStack r loop;
                Ret (ctrl_Result, err)
            else
              '(err, _) ← createStack r loop;
              Ret (ctrl_Result, err)
        end
  end.

(** ** The follower *)

(** [StackFollower]: the polling list ([sync.Map], stack identifier to the
    name of the resource) and the two Prometheus metrics, which only ever
    move by whole steps. *)
Record StackFollower : Type := {
  f_CloudFormationHelper : CloudFormationHelper;
  StacksFollowing : Z;
  StacksFollowed : Z;
  mapPollingList : gmap string NamespacedName
}.

Definition BeingFollowed (f : StackFollower) (stackId : string) : bool :=
  bool_decide (is_Some (mapPollingList f !! stackId)).

Definition startFollowing (f : StackFollower) (o : Stack) : StackFollower :=
  let namespacedName := {| nn_Namespace := Namespace o; nn_Name := Name o |} in
  {| f_CloudFormationHelper := f_CloudFormationHelper f;
     StacksFollowing := StacksFollowing f + 1;
     StacksFollowed := StacksFollowed f + 1;
     mapPollingList :=
       <[status_StackID (Status o) := namespacedName]> (mapPollingList f) |}.

Definition stopFollowing (f : StackFollower) (stackId : string)
  : StackFollower :=
  {| f_CloudFormationHelper := f_CloudFormationHelper f;
     StacksFollowing := StacksFollowing f - 1;
     StacksFollowed := StacksFollowed f;
     mapPollingList := delete stackId (mapPollingList f) |}.

(** One turn of the loop of [Receiver], for the request it took from the
    channel. *)
Definition Receiver_step (f : StackFollower) (toBeFollowed : Stack)
  : StackFollower :=
  if negb (BeingFollowed f (status_StackID (Status toBeFollowed)))
  then startFollowing f toBeFollowed
  else f.

(** [Receiver] over the requests that arrive on the channel, in order. *)
Definition Receiver (f : StackFollower) (received : list Stack)
  : StackFollower :=
  foldl Receiver_step f received.

(** *** The status merge ([updateStackStatus]) *)

(** The map built from [cfs.Outputs]; a later output overwrites an earlier
    one with the same key. *)
Definition buildOutputs (cfs : cfStack) : gmap string string :=
  foldl (λ outputs output, <[OutputKey output := OutputValue output]> outputs)
    ∅ (cfs_Outputs cfs).

(** [reflect.DeepEqual] of the fresh map, which is never nil, and the stored
    one. *)
Definition DeepEqual_outputs (outputs : gmap string string)
    (stored : option (gmap string string)) : bool :=
  bool_decide (Some outputs = stored).

Definition DeepEqual_resources (resources stored : slice StackResource) : bool :=
  bool_decide (resources = stored).

(** The local variable [update] and the object being merged into. *)
Record merge : Type := { update : bool; merged : Stack }.

(** "Checking the status". *)
Definition mergeStatus (cfs : cfStack) (m : merge) : merge :=
  let o := merged m in
  if bool_decide (cfs_StackStatus cfs ≠ status_StackStatus (Status o)) then
    let st := set_StackStatus (cfs_StackStatus cfs) (Status o) in
    let st := set_CreatedTime (Some (cfs_CreationTime cfs)) st in
    let st :=
      match cfs_LastUpdatedTime cfs with
      | Some t => set_UpdatedTime (Some t) st
      | None => st
      end in
    {| update := true; merged := set_Status st o |}
  else m.

(** "Checking stack ID and outputs for changes." *)
Definition mergeStackIDAndOutputs (cfs : cfStack)
    (outputs : gmap string string) (m : merge) : merge :=
  let o := merged m in
  let stackID := cfs_StackId cfs in
  if bool_decide (stackID ≠ status_StackID (Status o))
     || negb (DeepEqual_outputs outputs (status_Outputs (Status o)))
  then
    let st := set_StackID stackID (Status o) in
    let st :=
      if bool_decide (0 < size outputs) then set_Outputs (Some outputs) st
      else st in
    {| update := true; merged := set_Status st o |}
  else m.

(** "Recording the Role ARN". *)
Definition mergeRoleARN (cfs : cfStack) (m : merge) : merge :=
  let o := merged m in
  let st :=
    match cfs_RoleARN cfs with
    | Some roleArn =>
        if bool_decide (roleArn ≠ "") then set_RoleARN roleArn (Status o)
        else set_RoleARN "" (Status o)
    | None => set_RoleARN "" (Status o)
    end in
  {| update := update m; merged := set_Status st o |}.

(** "Recording all stack resources", once they are fetched. *)
Definition mergeResources (resources : slice StackResource) (m : merge)
  : merge :=
  let o := merged m in
  if negb (DeepEqual_resources resources (status_Resources (Status o))) then
    {| update := true;
       merged := set_Status (set_Resources resources (Status o)) o |}
  else m.

(** [updateStackStatus ctx instance stack...]: the error it returns and the
    object as it leaves it.  [stack] is the variadic argument. *)
Definition updateStackStatus (o : Stack) (stack_ : list (option cfStack))
  : prog (option error * Stack) :=
  let cfs := match stack_ with s :: _ => s | [] => None end in
  fetched ←
    match cfs with
    | Some cfs => Ret (inl cfs : cfStack + error)
    | None => call (HelperGetStack o)
    end;
  match fetched with
  | inr err => Ret (Some err, o)
  | inl cfs =>
      let outputs := buildOutputs cfs in
      let m := {| update := false; merged := o |} in
      let m := mergeStatus cfs m in
      let m := mergeStackIDAndOutputs cfs outputs m in
      let m := mergeRoleARN cfs m in
      got ← call (HelperGetStackResources (status_StackID (Status (merged m))));
      match got with
      | inr err => Ret (Some err, merged m)
      | inl resources =>
          let m := mergeResources resources m in
          if update m then
            err ← call (KubeStatusUpdate (merged m));
            match err with
            | Some e =>
                if IsNotFound e then Ret (None, merged m)
                else Ret (Some e, merged m)
            | None => Ret (None, merged m)
            end
          else Ret (None, merged m)
      end
  end.

#[local] Arguments updateStackStatus : simpl never.

(** *** The poll worker *)

(** [processStack key value]: whether the iteration goes on, and the
    follower afterwards. *)
Definition processStack (stackId : string) (namespacedName : NamespacedName)
    (f : StackFollower) : prog (bool * StackFollower) :=
  got ← call (KubeGet namespacedName);
  match got with
  | inr err =>
      if IsNotFound err then Ret (true, stopFollowing f stackId)
      else Ret (true, f)
  | inl o =>
      fetched ← call (HelperGetStack o);
      match fetched with
      | inr err =>
          if bool_decide (err = ErrStackNotFound)
          then Ret (true, stopFollowing f stackId)
          else Ret (true, f)
      | inl cfs =>
          '(err, _) ← updateStackStatus o [Some cfs];
          match err with
          | Some _ => Ret (true, f)
          | None =>
              if StackInTerminalState (f_CloudFormationHelper f)
                   (cfs_StackStatus cfs)
              then Ret (true, stopFollowing f stackId)
              else Ret (true, f)
          end
      end
  end.

#[local] Arguments processStack : simpl never.

(** [sync.Map.Range]: the callback on every entry, until it answers false. *)
Fixpoint Range (entries : list (string * NamespacedName))
    (fn : string → NamespacedName → StackFollower → prog (bool * StackFollower))
    (f : StackFollower) : prog StackFollower :=
  match entries with
  | [] => Ret f
  | (key, value) :: rest =>
      '(continue, f) ← fn key value f;
      if continue : bool then Range rest fn f else Ret f
  end.

(** One pass of the loop of [Worker] (after its sleep): the entries present
    when the pass starts, in the order of [map_to_list]. *)
Definition Worker_tick (f : StackFollower) : prog StackFollower :=
  Range (map_to_list (mapPollingList f)) processStack f.

(** [Worker], cut after [ticks] passes. *)
Fixpoint Worker (ticks : nat) (f : StackFollower) : prog StackFollower :=
  match ticks with
  | O => Ret f
  | S n => f ← Worker_tick f; Worker n f
  end.

(** The calls of one pass, entry by entry: the key of each entry the pass
    visits with the calls issued while it is processed. *)
Fixpoint Range_calls (o : oracle) (h : list event)
    (entries : list (string * NamespacedName)) (f : StackFollower)
  : list (string * list event) :=
  match entries with
  | [] => []
  | (key, value) :: rest =>
      let '((continue, f'), t) := run o h (processStack key value f) in
      (key, t)
        :: (if continue : bool then Range_calls o (h ++ t) rest f' else [])
  end.

(** The same over the passes of [Worker]. *)
Fixpoint Worker_calls (o : oracle) (h : list event) (ticks : nat)
    (f : StackFollower) : list (string * list event) :=
  match ticks with
  | O => []
  | S n =>
      let '(f', t) := run o h (Worker_tick f) in
      Range_calls o h (map_to_list (mapPollingList f)) f
        ++ Worker_calls o (h ++ t) n f'
  end.

(** ** Observations on a log *)

Definition isCfCreateStack (e : event) : bool :=
  match ev_request e with CfCreateStack _ => true | _ => false end.

Definition isCfDeleteStack (e : event) : bool :=
  match ev_request e with CfDeleteStack _ => true | _ => false end.

Definition isChanSend (e : event) : bool :=
  match ev_request e with ChanSend _ => true | _ => false end.

Definition isKubeStatusUpdate (e : event) : bool :=
  match ev_request e with KubeStatusUpdate _ => true | _ => false end.

Definition isFollowerUpdateStackStatus (e : event) : bool :=
  match ev_request e with FollowerUpdateStackStatus _ => true | _ => false end.

(** The callee of a call, for reading logs. *)
Definition callee (e : event) : string :=
  match ev_request e with
  | KubeGet _ => "Client.Get"
  | KubeUpdate _ => "Client.Update"
  | KubeStatusUpdate _ => "Client.Status.Update"
  | HelperGetStack _ => "GetStack"
  | HelperGetStackResources _ => "GetStackResources"
  | HelperGetStackName _ _ => "GetStackName"
  | CfCreateStack _ => "CreateStack"
  | CfUpdateStack _ => "UpdateStack"
  | CfDeleteStack _ => "DeleteStack"
  | ChanSend _ => "SubmissionChannel"
  | FollowerUpdateStackStatus _ => "UpdateStackStatus"
  end.

(** How many events of a log satisfy a test. *)
Definition count (P : event → bool) (t : list event) : nat :=
  length (filter (λ e, P e = true) t).

(** The error of a failed [UpdateStack] call. *)
Definition updateStackFailure (e : event) : option error :=
  match e with
  | Ev q a =>
      match q return response q → option error with
      | CfUpdateStack _ => λ a, a
      | _ => λ _, None
      end a
  end.

(** An [UpdateStack] call that failed with "no updates to perform". *)
Definition isNoUpdatesFailure (e : event) : bool :=
  match updateStackFailure e with
  | Some err => strings_Contains (Error err) "No updates are to be performed."
  | None => false
  end.

(** The remote stack as one reconcile pass sees it: the stack it holds
    already, or else the answer of the helper. *)
Definition seenStack (o : oracle) (h : list event) (loop : StackLoop)
  : cfStack + error :=
  match stack loop with
  | Some s => inl s
  | None => o h (HelperGetStack (instance loop))
  end.

(** "Does not exist": the lookup reports not found, or the stack is in the
    fully deleted status. *)
Definition doesNotExist (seen : cfStack + error) : bool :=
  match seen with
  | inr err =>
      strings_Contains (Error err) "does not exist"
      || bool_decide (err = ErrStackNotFound)
  | inl s => bool_decide (cfs_StackStatus s = "DELETE_COMPLETE")
  end.

(** The tag set of the stack contains the ownership pair. *)
Definition carriesOwnershipTag (seen : cfStack + error) : bool :=
  match seen with
  | inr _ => false
  | inl s =>
      bool_decide
        ({| tag_Key := controllerKey; tag_Value := controllerValue |}
           ∈ cfs_Tags s)
  end.

(** The error the existence and ownership checks hand back: a lookup error
    that does not mean "not found". *)
Definition lookupError (seen : cfStack + error) : option error :=
  match seen with
  | inr err => if doesNotExist seen then None else Some err
  | inl _ => None
  end.

(** The calls the existence and ownership checks issue, and the pass
    afterwards: one fetch, unless the pass holds the stack already. *)
Definition lookupCalls (o : oracle) (h : list event) (loop : StackLoop)
  : list event :=
  match stack loop with
  | Some _ => []
  | None =>
      [Ev (HelperGetStack (instance loop))
          (o h (HelperGetStack (instance loop)))]
  end.

Definition afterLookup (o : oracle) (h : list event) (loop : StackLoop)
  : StackLoop :=
  match seenStack o h loop with
  | inl s => set_stack (Some s) loop
  | inr _ => set_stack None loop
  end.

(** The merge of [updateStackStatus] up to the fetch of the resources. *)
Definition mergeBeforeResources (obj : Stack) (cfs : cfStack) : merge :=
  mergeRoleARN cfs
    (mergeStackIDAndOutputs cfs (buildOutputs cfs)
       (mergeStatus cfs {| update := false; merged := obj |})).

(** The role ARN of the remote stack as the status records it: empty when
    the stack has none. *)
Definition remoteRoleARN (cfs : cfStack) : string :=
  default "" (cfs_RoleARN cfs).

(** The fields whose change makes [updateStackStatus] set [update]: the
    status, the identifier, the outputs and the resources. *)
Definition flaggedChange (obj : Stack) (cfs : cfStack)
    (resources : slice StackResource) : bool :=
  bool_decide (cfs_StackStatus cfs ≠ status_StackStatus (Status obj))
  || bool_decide (cfs_StackId cfs ≠ status_StackID (Status obj))
  || negb (DeepEqual_outputs (buildOutputs cfs) (status_Outputs (Status obj)))
  || negb (DeepEqual_resources resources (status_Resources (Status obj))).

(** ** Concrete environments *)

(** An environment that answers every call of one kind the same way. *)
Record answers : Type := {
  onKubeGet : Stack + error;
  onKubeUpdate : option error;
  onKubeStatusUpdate : option error;
  onGetStack : cfStack + error;
  onGetStackResources : slice StackResource + error;
  onGetStackName : string;
  onCreateStack : string + error;
  onUpdateStack : option error;
  onDeleteStack : option error;
  onUpdateStackStatus : option error
}.

Definition constant (a : answers) : oracle :=
  λ _ q,
    match q return response q with
    | KubeGet _ => onKubeGet a
    | KubeUpdate _ => onKubeUpdate a
    | KubeStatusUpdate _ => onKubeStatusUpdate a
    | HelperGetStack _ => onGetStack a
    | HelperGetStackResources _ => onGetStackResources a
    | HelperGetStackName _ _ => onGetStackName a
    | CfCreateStack _ => onCreateStack a
    | CfUpdateStack _ => onUpdateStack a
    | CfDeleteStack _ => onDeleteStack a
    | ChanSend _ => ()
    | FollowerUpdateStackStatus o => (onUpdateStackStatus a, o)
    end.

(** Sample data for the closed instances at the end of the file. *)
Definition sampleSpec (template templateUrl : string) : StackSpec :=
  {| spec_Template := template; spec_TemplateUrl := templateUrl;
     spec_RoleARN := ""; spec_NotificationArns := []; spec_OnFailure := "";
     spec_Parameters := {[ "Env" := "prod" ]}; spec_Tags := ∅ |}.

Definition sampleStackID : string :=
  "arn:aws:cloudformation:eu-west-1:111122223333:stack/demo/0a1b".

Definition sampleStatus (status : string)
    (outputs : option (gmap string string)) (roleArn : string)
  : StackStatus :=
  {| status_StackID := sampleStackID; status_StackStatus := status;
     status_CreatedTime := Some 1700000000%Z; status_UpdatedTime := None;
     status_Outputs := outputs; status_RoleARN := roleArn;
     status_Resources := Some [] |}.

Definition sampleStack (deletion : option Timestamp)
    (finalizers : list string) (spec : StackSpec) (status : StackStatus)
  : Stack :=
  {| Name := "demo"; Namespace := "default"; UID := "7c1e";
     DeletionTimestamp := deletion; Finalizers := finalizers;
     Spec := spec; Status := status |}.

Definition sampleName : NamespacedName :=
  {| nn_Namespace := "default"; nn_Name := "demo" |}.

Definition sampleRemote (status : string) (outputs : list cfOutput)
    (roleArn : option string) (tags : list cfTag) : cfStack :=
  {| cfs_StackId := sampleStackID; cfs_StackStatus := status;
     cfs_CreationTime := 1700000000%Z; cfs_LastUpdatedTime := None;
     cfs_Outputs := outputs; cfs_RoleARN := roleArn; cfs_Tags := tags |}.

Definition sampleHelper : CloudFormationHelper :=
  {| StackInTerminalState := λ status,
       bool_decide
         (status ∈ ["CREATE_COMPLETE"; "CREATE_FAILED"; "DELETE_COMPLETE";
                    "DELETE_FAILED"; "ROLLBACK_COMPLETE"; "ROLLBACK_FAILED";
                    "UPDATE_COMPLETE"; "UPDATE_ROLLBACK_COMPLETE";
                    "UPDATE_ROLLBACK_FAILED"]) |}.

Definition sampleReconciler (dryRun : bool) : StackReconciler :=
  {| r_CloudFormationHelper := sampleHelper; DefaultTags := ∅;
     DefaultCapabilities := ["CAPABILITY_IAM"]; DryRun := dryRun |}.

(** Every call succeeds, but for the three answers given. *)
Definition sampleAnswers (got : Stack + error) (remote : cfStack + error)
    (updated : option error) : answers :=
  {| onKubeGet := got; onKubeUpdate := None; onKubeStatusUpdate := None;
     onGetStack := remote; onGetStackResources := inl (Some []);
     onGetStackName := "demo-7c1e"; onCreateStack := inl sampleStackID;
     onUpdateStack := updated; onDeleteStack := None;
     onUpdateStackStatus := None |}.

Definition sampleLoop (o : Stack) : StackLoop :=
  {| req := sampleName; instance := o; stack := None |}.

Definition markedStack (status : string) : Stack :=
  sampleStack (Some 1700000500%Z)
    [stacksFinalizer; legacyFinalizer; "backup.example.com/hold"]
    (sampleSpec "Resources: {}" "") (sampleStatus status None "").

Definition liveStack (template templateUrl : string)
    (outputs : option (gmap string string)) : Stack :=
  sampleStack None [stacksFinalizer] (sampleSpec template templateUrl)
    (sampleStatus "CREATE_COMPLETE" outputs "").

(** A resource whose status was recorded in full, and an environment that
    reports the given resources. *)
Definition recordedStack (outputs : option (gmap string string))
    (roleArn : string) (resources : slice StackResource) : Stack :=
  sampleStack None [stacksFinalizer] (sampleSpec "Resources: {}" "")
    {| status_StackID := sampleStackID; status_StackStatus := "CREATE_COMPLETE";
       status_CreatedTime := Some 1700000000%Z; status_UpdatedTime := None;
       status_Outputs := outputs; status_RoleARN := roleArn;
       status_Resources := resources |}.

Definition withResources (resources : slice StackResource + error)
    (a : answers) : answers :=
  {| onKubeGet := onKubeGet a; onKubeUpdate := onKubeUpdate a;
     onKubeStatusUpdate := onKubeStatusUpdate a; onGetStack := onGetStack a;
     onGetStackResources := resources; onGetStackName := onGetStackName a;
     onCreateStack := onCreateStack a; onUpdateStack := onUpdateStack a;
     onDeleteStack := onDeleteStack a;
     onUpdateStackStatus := onUpdateStackStatus a |}.

Definition ownershipTag : cfTag :=
  {| tag_Key := controllerKey; tag_Value := controllerValue |}.

Definition foreignRemote : cfStack :=
  sampleRemote "CREATE_COMPLETE" [] None
    [ {| tag_Key := "team"; tag_Value := "data" |} ].

Definition sampleOutput : cfOutput :=
  {| OutputKey := "Endpoint"; OutputValue := "https://demo.example.com" |}.

Definition noUpdates : error :=
  OtherError false "ValidationError: No updates are to be performed.".

Definition sampleFollower : StackFollower :=
  {| f_CloudFormationHelper := sampleHelper; StacksFollowing := 1;
     StacksFollowed := 4;
     mapPollingList := {[ sampleStackID := sampleName ]} |}.

(** ** Properties of all runs *)

(** [always Q p]: every call [p] can issue, whatever the answers, satisfies
    [Q] together with its answer. *)
Fixpoint always {A : Type} (Q : event → Prop) (p : prog A) : Prop :=
  match p with
  | Ret _ => True
  | Call q k => ∀ a : response q, Q (Ev q a) ∧ always Q (k a)
  end.

Definition isHelperGetStack (e : event) : bool :=
  match ev_request e with HelperGetStack _ => true | _ => false end.

Definition isCfUpdateStack (e : event) : bool :=
  match ev_request e with CfUpdateStack _ => true | _ => false end.

(** The calls that change the remote side. *)
Definition isMutation (e : event) : bool :=
  isCfCreateStack e || isCfUpdateStack e || isCfDeleteStack e.

(** The tags a CreateStack or UpdateStack call carries. *)
Definition callTags (e : event) : option (list cfTag) :=
  match ev_request e with
  | CfCreateStack input => Some (ci_Tags input)
  | CfUpdateStack input => Some (ui_Tags input)
  | _ => None
  end.

(** The tag that names the owning resource. *)
Definition ownerTag (o : Stack) : cfTag :=
  {| tag_Key := ownerKey; tag_Value := UID o |}.

Definition parameterPair (p : cfParameter) : string * string :=
  (ParameterKey p, ParameterValue p).

Definition outputPair (output : cfOutput) : string * string :=
  (OutputKey output, OutputValue output).

(** The two halves of [Reconcile] after the resource is read, named for the
    proofs ([Reconcile_unfold]): the pass for a resource under deletion and
    the pass for a live one. *)
Definition reconcileDeletion (r : StackReconciler) (loop : StackLoop)
  : prog (Result * option error) :=
  if ContainsFinalizer (instance loop) stacksFinalizer
     || ContainsFinalizer (instance loop) legacyFinalizer
  then
    if bool_decide (status_StackStatus (Status (instance loop)) = "DELETE_COMPLETE")
       || bool_decide (status_StackStatus (Status (instance loop)) = "")
    then
      let o :=
        RemoveFinalizer (RemoveFinalizer (instance loop) stacksFinalizer)
          legacyFinalizer in
      err ← call (KubeUpdate o);
      match err with
      | Some e => Ret (ctrl_Result, Some e)
      | None => Ret (ctrl_Result, None)
      end
    else
      '(err, loop) ← deleteStack r loop;
      match err with
      | Some e => Ret (ctrl_Result, Some e)
      | None => Ret (ctrl_Result, None)
      end
  else Ret (ctrl_Result, None).

Definition reconcileLive (r : StackReconciler) (loop : StackLoop)
  : prog (Result * option error) :=
  if negb (ContainsFinalizer (instance loop) stacksFinalizer) then
    err ← call (KubeUpdate (AddFinalizer (instance loop) stacksFinalizer));
    Ret (ctrl_Result, err)
  else
    '((exists_, err), loop) ← stackExists r loop;
    match err with
    | Some e => Ret (ctrl_Result, Some e)
    | None =>
        if exists_ : bool then
          '((ownership, _), loop) ← hasOwnership r loop;
          if ownership : bool then
            if negb (StackInTerminalState (r_CloudFormationHelper r)
                       (loop_StackStatus loop))
            then
              _ ← call (ChanSend (instance loop));
              Ret (ctrl_Result, None)
            else
              '(err, _) ← updateStack r loop;
              Ret (ctrl_Result, err)
          else
            '(err, _) ← createStack r loop;
            Ret (ctrl_Result, err)
        else
          '(err, _) ← createStack r loop;
          Ret (ctrl_Result, err)
    end.

(** Everything of a resource but its status. *)
Definition sameButStatus (a b : Stack) : Prop :=
  Name a = Name b ∧ Namespace a = Namespace b ∧ UID a = UID b
  ∧ DeletionTimestamp a = DeletionTimestamp b
  ∧ Finalizers a = Finalizers b ∧ Spec a = Spec b.

(** The name under which a resource is registered. *)
Definition locator (o : Stack) : NamespacedName :=
  {| nn_Namespace := Namespace o; nn_Name := Name o |}.

(** More sample data for the closed instances. *)
Definition freshStack : Stack :=
  sampleStack None [legacyFinalizer] (sampleSpec "Resources: {}" "")
    (sampleStatus "" None "").

Definition goneError : error :=
  OtherError true "stacks.cloudformation.cuppett.com demo not found".

Definition accessDenied : error :=
  OtherError false "AccessDenied: not authorized to perform UpdateStack".

Definition missingRemote : error :=
  OtherError false "Stack with id demo-7c1e does not exist".

Definition ownedRemote (status : string) : cfStack :=
  sampleRemote status [] None [ownershipTag].

(** ** Running programs *)

Lemma run_bind {A B : Type} (o : oracle) (h : list event) (p : prog A)
    (f : A → prog B) :
  run o h (p ≫= f) =
    let '(a, t) := run o h p in
    let '(b, t') := run o (h ++ t) (f a) in
    (b, t ++ t').
Proof.
  revert h. induction p as [a | q k IH]; intros h.
  - cbn. rewrite app_nil_r. by destruct (run o h (f a)).
  - cbn. change (bind (k (o h q)) f) with (k (o h q) ≫= f). rewrite IH.
    destruct (run o (h ++ [Ev q (o h q)]) (k (o h q))) as [a t].
    rewrite <- app_assoc. cbn.
    by destruct (run o (h ++ Ev q (o h q) :: t) (f a)).
Qed.

(** ** The ownership check *)

Lemma hasControllerTag_spec (tags : list cfTag) :
  hasControllerTag tags
  = bool_decide
      ({| tag_Key := controllerKey; tag_Value := controllerValue |} ∈ tags).
Proof.
  induction tags as [| [k v] tags IH]; cbn.
  - symmetry. apply bool_decide_eq_false. by intros ?%elem_of_nil.
  - rewrite IH. clear IH.
    destruct (decide (k = controllerKey)) as [-> | Hk];
      destruct (decide (v = controllerValue)) as [-> | Hv];
      rewrite ?(bool_decide_eq_true_2 (_ = _)) by done;
      rewrite ?(bool_decide_eq_false_2 (k = _)) by done;
      rewrite ?(bool_decide_eq_false_2 (v = _)) by done; cbn.
    + symmetry. apply bool_decide_eq_true. left.
    + apply bool_decide_ext. rewrite elem_of_cons.
      split; [by right | intros [? | ?]; [congruence | done]].
    + apply bool_decide_ext. rewrite elem_of_cons.
      split; [by right | intros [? | ?]; [congruence | done]].
    + apply bool_decide_ext. rewrite elem_of_cons.
      split; [by right | intros [? | ?]; [congruence | done]].
Qed.

(** The value and the calls of [getStack] without forcing: the stack of the
    pass, fetched at most once. *)
Lemma run_getStack (o : oracle) (h : list event) (r : StackReconciler)
    (loop : StackLoop) :
  run o h (getStack r loop false) =
    match stack loop with
    | Some s => ((inl s, loop), [])
    | None =>
        let a := o h (HelperGetStack (instance loop)) in
        (match a with
         | inl s => (inl s, set_stack (Some s) loop)
         | inr err =>
             (inr (if strings_Contains (Error err) "does not exist"
                   then ErrStackNotFound else err), set_stack None loop)
         end, [Ev (HelperGetStack (instance loop)) a])
    end.
Proof.
  unfold getStack. destruct (stack loop) as [s|]; [done|].
  cbn. destruct (o h (HelperGetStack (instance loop))) as [s|err]; [done|].
  by destruct (strings_Contains (Error err) "does not exist").
Qed.

Lemma set_stack_id (loop : StackLoop) : set_stack (stack loop) loop = loop.
Proof. by destruct loop. Qed.

Lemma run_stackExists (o : oracle) (h : list event) (r : StackReconciler)
    (loop : StackLoop) :
  run o h (stackExists r loop) =
    let seen := seenStack o h loop in
    (((match seen with inl _ => negb (doesNotExist seen) | inr _ => false end,
       lookupError seen), afterLookup o h loop),
     lookupCalls o h loop).
Proof.
  unfold stackExists. rewrite run_bind, run_getStack.
  unfold seenStack, afterLookup, lookupCalls, seenStack.
  destruct (stack loop) as [s|] eqn:Hs; cbn.
  - rewrite <- Hs, set_stack_id.
    by destruct (bool_decide (cfs_StackStatus s = "DELETE_COMPLETE")).
  - destruct (o h (HelperGetStack (instance loop))) as [s|err]; cbn.
    + by destruct (bool_decide (cfs_StackStatus s = "DELETE_COMPLETE")).
    + destruct (strings_Contains (Error err) "does not exist"); cbn; [done|].
      by destruct (bool_decide (err = ErrStackNotFound)).
Qed.

Lemma run_hasOwnership (o : oracle) (h : list event) (r : StackReconciler)
    (loop : StackLoop) :
  run o h (hasOwnership r loop) =
    let seen := seenStack o h loop in
    (((doesNotExist seen || carriesOwnershipTag seen, lookupError seen),
      afterLookup o h loop),
     lookupCalls o h loop).
Proof.
  unfold hasOwnership. rewrite run_bind, run_stackExists. cbn.
  unfold afterLookup, lookupError.
  destruct (seenStack o h loop) as [s|err] eqn:Hseen; cbn.
  - destruct (bool_decide (cfs_StackStatus s = "DELETE_COMPLETE")); cbn.
    + by rewrite app_nil_r.
    + by rewrite hasControllerTag_spec, app_nil_r.
  - destruct (strings_Contains (Error err) "does not exist"
              || bool_decide (err = ErrStackNotFound)); cbn;
      by rewrite app_nil_r.
Qed.

(** The pointer [loop.stack] is set whenever [stackExists] answers true. *)
Lemma stackExists_true_stack (o : oracle) (h : list event)
    (r : StackReconciler) (loop : StackLoop) :
  (run o h (stackExists r loop)).1.1.1 = true →
  is_Some (stack (run o h (stackExists r loop)).1.2).
Proof.
  rewrite run_stackExists. cbn. unfold afterLookup.
  destruct (seenStack o h loop); cbn; [by eauto | done].
Qed.

(** C9. The ownership check answers true exactly when the remote stack does
    not exist (the lookup reports not found, which is no error, or the stack
    is in the fully deleted status) or when its tags contain the ownership
    pair; in every other case it answers false, and it asks for the remote
    stack at most once. *)
Theorem hasOwnership_true_iff (o : oracle) (h : list event)
    (r : StackReconciler) (loop : StackLoop) :
  let seen := seenStack o h loop in
  let '((owned, err), _, calls) := run o h (hasOwnership r loop) in
  owned = (doesNotExist seen || carriesOwnershipTag seen)
  ∧ (owned = true ↔
       doesNotExist seen = true
       ∨ ∃ s, seen = inl s
              ∧ {| tag_Key := controllerKey; tag_Value := controllerValue |}
                  ∈ cfs_Tags s)
  ∧ (doesNotExist seen = true → err = None)
  ∧ err = lookupError seen
  ∧ calls = lookupCalls o h loop.
Proof.
  rewrite run_hasOwnership. cbn.
  split_and!; try done.
  - rewrite orb_true_iff. apply or_iff_compat_l.
    unfold carriesOwnershipTag.
    destruct (seenStack o h loop) as [s|err].
    + rewrite bool_decide_eq_true. split; [by eauto|].
      by intros (? & [= <-] & ?).
    + split; [done | by intros (? & [=] & _)].
  - unfold lookupError. intros ->. by destruct (seenStack o h loop).
Qed.

(** ** Delete logic *)

Lemma count_lookupCalls (o : oracle) (h : list event) (loop : StackLoop)
    (P : event → bool) :
  P (Ev (HelperGetStack (instance loop))
        (o h (HelperGetStack (instance loop)))) = false →
  count P (lookupCalls o h loop) = 0.
Proof.
  intros HP. unfold lookupCalls, count.
  destruct (stack loop); [done|]. rewrite filter_cons_False; [done|].
  by rewrite HP.
Qed.

(** C5. When the remote stack exists and its tags lack the ownership pair,
    delete logic returns success and issues neither a DeleteStack call nor a
    send to the follower. *)
Theorem deleteStack_not_owned (o : oracle) (h : list event)
    (r : StackReconciler) (loop : StackLoop) (s : cfStack) :
  seenStack o h loop = inl s →
  cfs_StackStatus s ≠ "DELETE_COMPLETE" →
  {| tag_Key := controllerKey; tag_Value := controllerValue |} ∉ cfs_Tags s →
  let '((err, _), calls) := run o h (deleteStack r loop) in
  err = None
  ∧ count isCfDeleteStack calls = 0
  ∧ count isChanSend calls = 0.
Proof.
  intros Hseen Hstatus Htag. unfold deleteStack.
  destruct (DryRun r); [done|].
  rewrite run_bind, run_hasOwnership. cbn. rewrite Hseen. cbn.
  rewrite !bool_decide_eq_false_2 by done. cbn.
  rewrite app_nil_r. split_and!; [done | by apply count_lookupCalls ..].
Qed.

(** C10. In dry-run mode delete logic returns success at once: it issues no
    call at all (no ownership lookup, no DeleteStack, no send to the
    follower) and leaves the resource as it is; a reconcile pass that reaches
    it for a resource under deletion writes nothing back, so its finalizers
    stay. *)
Theorem deleteStack_dry_run (o : oracle) (h : list event)
    (r : StackReconciler) (loop : StackLoop) (name : NamespacedName)
    (obj : Stack) :
  DryRun r = true →
  run o h (deleteStack r loop) = ((None, loop), [])
  ∧ (o h (KubeGet name) = inl obj →
     is_Some (DeletionTimestamp obj) →
     stacksFinalizer ∈ Finalizers obj ∨ legacyFinalizer ∈ Finalizers obj →
     status_StackStatus (Status obj) ≠ "DELETE_COMPLETE" →
     status_StackStatus (Status obj) ≠ "" →
     run o h (Reconcile r name)
     = ((ctrl_Result, None), [Ev (KubeGet name) (inl obj)])).
Proof.
  intros Hdry. split.
  - unfold deleteStack. by rewrite Hdry.
  - intros Hget Hdel Hfin Hst1 Hst2. unfold Reconcile.
    rewrite run_bind. cbn. rewrite Hget. cbn.
    rewrite bool_decide_eq_true_2 by done.
    replace (ContainsFinalizer obj stacksFinalizer
             || ContainsFinalizer obj legacyFinalizer) with true.
    2:{ symmetry. unfold ContainsFinalizer.
        rewrite orb_true_iff, !bool_decide_eq_true. done. }
    rewrite !bool_decide_eq_false_2 by done. cbn.
    unfold deleteStack. by rewrite Hdry.
Qed.

(** ** Finalization *)

Lemma RemoveFinalizer_both (obj : Stack) :
  RemoveFinalizer (RemoveFinalizer obj stacksFinalizer) legacyFinalizer
  = set_Finalizers
      (filter (λ f, f ≠ stacksFinalizer ∧ f ≠ legacyFinalizer) (Finalizers obj))
      obj.
Proof.
  unfold RemoveFinalizer, set_Finalizers. cbn. f_equal.
  induction (Finalizers obj) as [| f fs IH]; [done|].
  rewrite (filter_cons (λ f, f ≠ stacksFinalizer)).
  rewrite (filter_cons (λ f, f ≠ stacksFinalizer ∧ f ≠ legacyFinalizer)).
  destruct (decide (f ≠ stacksFinalizer)) as [Hs | Hs].
  - rewrite (filter_cons (λ f, f ≠ legacyFinalizer)).
    destruct (decide (f ≠ legacyFinalizer)) as [Hl | Hl].
    + rewrite decide_True by done. by rewrite IH.
    + rewrite decide_False by (by intros [_ ?]). done.
  - rewrite decide_False by (by intros [? _]). done.
Qed.

(** C3. For a resource under deletion that still carries the current or the
    legacy finalizer: when its recorded status is DELETE_COMPLETE or empty,
    the pass removes both finalizers at once (every other finalizer and field
    stays), persists the resource with one Update call and issues no further
    call, so no DeleteStack; in every other case the pass is the delete
    logic, whose calls and error it hands on. *)
Theorem Reconcile_marked_for_deletion (o : oracle) (h : list event)
    (r : StackReconciler) (name : NamespacedName) (obj : Stack) :
  o h (KubeGet name) = inl obj →
  is_Some (DeletionTimestamp obj) →
  stacksFinalizer ∈ Finalizers obj ∨ legacyFinalizer ∈ Finalizers obj →
  let got := Ev (KubeGet name) (inl obj) in
  (status_StackStatus (Status obj) = "DELETE_COMPLETE"
   ∨ status_StackStatus (Status obj) = "" →
   ∃ obj' : Stack,
     let persisted := o (h ++ [got]) (KubeUpdate obj') in
     run o h (Reconcile r name)
     = ((ctrl_Result, persisted), [got; Ev (KubeUpdate obj') persisted])
     ∧ (stacksFinalizer ∉ Finalizers obj')
     ∧ (legacyFinalizer ∉ Finalizers obj')
     ∧ (∀ f, f ≠ stacksFinalizer → f ≠ legacyFinalizer →
             (f ∈ Finalizers obj' ↔ f ∈ Finalizers obj))
     ∧ obj' = set_Finalizers (Finalizers obj') obj)
  ∧ (status_StackStatus (Status obj) ≠ "DELETE_COMPLETE" →
     status_StackStatus (Status obj) ≠ "" →
     run o h (Reconcile r name)
     = let '((err, _), calls) :=
         run o (h ++ [got])
           (deleteStack r {| req := name; instance := obj; stack := None |}) in
       ((ctrl_Result, err), got :: calls)).
Proof.
  intros Hget Hdel Hfin got.
  assert (ContainsFinalizer obj stacksFinalizer
          || ContainsFinalizer obj legacyFinalizer = true) as Hcontains.
  { unfold ContainsFinalizer. by rewrite orb_true_iff, !bool_decide_eq_true. }
  split.
  - intros Hstatus.
    exists (RemoveFinalizer (RemoveFinalizer obj stacksFinalizer) legacyFinalizer).
    split_and!.
    + unfold Reconcile. rewrite run_bind. cbn. rewrite Hget. cbn.
      rewrite bool_decide_eq_true_2 by done. rewrite Hcontains.
      replace (bool_decide (status_StackStatus (Status obj) = "DELETE_COMPLETE")
               || bool_decide (status_StackStatus (Status obj) = ""))
        with true
        by (symmetry; by rewrite orb_true_iff, !bool_decide_eq_true).
      cbn. fold got.
      by destruct (o (h ++ [got]) (KubeUpdate _)).
    + rewrite RemoveFinalizer_both. cbn. rewrite list_elem_of_filter. tauto.
    + rewrite RemoveFinalizer_both. cbn. rewrite list_elem_of_filter. tauto.
    + intros f Hs Hl. rewrite RemoveFinalizer_both. cbn.
      rewrite list_elem_of_filter. tauto.
    + by rewrite RemoveFinalizer_both.
  - intros Hst1 Hst2. unfold Reconcile. rewrite run_bind. cbn.
    rewrite Hget. cbn. rewrite bool_decide_eq_true_2 by done.
    rewrite Hcontains. rewrite !bool_decide_eq_false_2 by done. cbn.
    rewrite run_bind. fold got.
    destruct (run o (h ++ [got]) (deleteStack r _)) as [[err loop'] calls].
    cbn. destruct err; cbn; by rewrite app_nil_r.
Qed.

(** ** Create and update logic *)

(** The calls of create logic are a name lookup, a CreateStack call and a
    send; none of them is an UpdateStack call. *)
Lemma createStack_no_update_failure (o : oracle) (h : list event)
    (r : StackReconciler) (loop : StackLoop) :
  existsb isNoUpdatesFailure (run o h (createStack r loop)).2 = false.
Proof.
  unfold createStack. destruct (DryRun r); [done|]. cbn.
  destruct (bool_decide (spec_Template (Spec (instance loop)) = "")
            && bool_decide (spec_TemplateUrl (Spec (instance loop)) = ""));
    [done|].
  cbn. by destruct (o _ (CfCreateStack _)).
Qed.

(** C4. Whenever the UpdateStack call of update logic fails with an error
    that carries "No updates are to be performed.", the calls of update logic
    are the name lookup, that UpdateStack call and one direct call of the
    status refresh on the resource; nothing is sent to the follower, and the
    error update logic returns is the one the refresh returned. *)
Theorem updateStack_no_updates (o : oracle) (h : list event)
    (r : StackReconciler) (loop : StackLoop) :
  existsb isNoUpdatesFailure (run o h (updateStack r loop)).2 = true →
  ∃ (name : string) (input : UpdateStackInput) (failure : error)
    (refreshed : option error * Stack),
    strings_Contains (Error failure) "No updates are to be performed." = true
    ∧ run o h (updateStack r loop)
      = ((refreshed.1, set_instance refreshed.2 loop),
         [Ev (HelperGetStackName (instance loop) true) name;
          Ev (CfUpdateStack input) (Some failure);
          Ev (FollowerUpdateStackStatus (instance loop)) refreshed])
    ∧ count isChanSend (run o h (updateStack r loop)).2 = 0
    ∧ count isFollowerUpdateStackStatus (run o h (updateStack r loop)).2 = 1.
Proof.
  unfold updateStack. destruct (DryRun r); [done|]. cbn.
  destruct (bool_decide (spec_Template (Spec (instance loop)) = "")
            && bool_decide (spec_TemplateUrl (Spec (instance loop)) = ""));
    [done|].
  cbn.
  set (name := o h (HelperGetStackName (instance loop) true)).
  set (h1 := h ++ [Ev (HelperGetStackName (instance loop) true) name]).
  set (input := updateStackInput r loop name _).
  destruct (o h1 (CfUpdateStack input)) as [failure|] eqn:Hupdate; [|done].
  destruct (strings_Contains (Error failure) "No updates are to be performed.")
    eqn:Hsentinel.
  - cbn. intros _.
    set (h2 := h1 ++ [Ev (CfUpdateStack input) (Some failure)]).
    destruct (o h2 (FollowerUpdateStackStatus (instance loop)))
      as [err obj] eqn:Hrefresh.
    exists name, input, failure, (err, obj). by rewrite Hsentinel.
  - destruct (strings_Contains (Error failure) "does not exist").
    + pose proof (createStack_no_update_failure o
                    (h1 ++ [Ev (CfUpdateStack input) (Some failure)]) r loop)
        as Hcreate.
      destruct (run o _ (createStack r loop)) as [res calls].
      cbn in *. by rewrite Hsentinel, Hcreate.
    + cbn. by rewrite Hsentinel.
Qed.

(** C2, as the code has it.  With dry-run off, create logic asks for at
    least one of template body and template reference: with neither it
    returns ErrMissingTemplateSpec after the name lookup and issues no
    CreateStack call; with at least one, and so also with both, it issues
    the CreateStack call, with the template body when there is one and with
    the reference otherwise, and a failure of the call is the error it
    returns. *)
Theorem createStack_template_check (o : oracle) (h : list event)
    (r : StackReconciler) (loop : StackLoop) :
  DryRun r = false →
  let spec := Spec (instance loop) in
  let named :=
    Ev (HelperGetStackName (instance loop) false)
       (o h (HelperGetStackName (instance loop) false)) in
  (spec_Template spec = "" → spec_TemplateUrl spec = "" →
   run o h (createStack r loop)
   = ((Some ErrMissingTemplateSpec, loop), [named])
   ∧ count isCfCreateStack (run o h (createStack r loop)).2 = 0)
  ∧ (spec_Template spec ≠ "" ∨ spec_TemplateUrl spec ≠ "" →
     ∃ (input : CreateStackInput) (rest : list event),
       let created := o (h ++ [named]) (CfCreateStack input) in
       (run o h (createStack r loop)).2
       = named :: Ev (CfCreateStack input) created :: rest
       ∧ ci_TemplateBody input
         = (if bool_decide (spec_Template spec ≠ "")
            then Some (spec_Template spec) else None)
       ∧ ci_TemplateURL input
         = (if bool_decide (spec_Template spec ≠ "")
            then None else Some (spec_TemplateUrl spec))
       ∧ (run o h (createStack r loop)).1.1
         = match created with inr e => Some e | inl _ => None end).
Proof.
  intros Hdry spec named. unfold createStack. rewrite Hdry. cbn. fold named.
  split.
  - intros Ht Hu. fold spec. rewrite Ht, Hu. done.
  - intros Hsome. fold spec.
    replace (bool_decide (spec_Template spec = "")
             && bool_decide (spec_TemplateUrl spec = "")) with false.
    2:{ symmetry. rewrite andb_false_iff, !bool_decide_eq_false. tauto. }
    cbn. set (input := createStackInput r loop _ _).
    destruct (o (h ++ [named]) (CfCreateStack input)) as [id | e] eqn:Hcreate;
      cbn; eexists input, _; cbn; rewrite Hcreate; by split_and!.
Qed.

(** ** The status merge *)

Lemma run_updateStackStatus (o : oracle) (h : list event) (obj : Stack)
    (cfs : cfStack) (rest : list (option cfStack)) :
  run o h (updateStackStatus obj (Some cfs :: rest)) =
    let m := mergeBeforeResources obj cfs in
    let fetch := HelperGetStackResources (status_StackID (Status (merged m))) in
    match o h fetch with
    | inr err => ((Some err, merged m), [Ev fetch (inr err)])
    | inl resources =>
        let m' := mergeResources resources m in
        let fetched := Ev fetch (inl resources) in
        if update m' then
          let persisted := o (h ++ [fetched]) (KubeStatusUpdate (merged m')) in
          ((match persisted with
            | Some e => if IsNotFound e then None else Some e
            | None => None
            end, merged m'),
           [fetched; Ev (KubeStatusUpdate (merged m')) persisted])
        else ((None, merged m'), [fetched])
    end.
Proof.
  unfold updateStackStatus. cbn. fold (mergeBeforeResources obj cfs).
  set (m := mergeBeforeResources obj cfs).
  destruct (o h (HelperGetStackResources _)) as [resources | err]; [|done].
  cbn. destruct (update (mergeResources resources m)); [|done].
  cbn. destruct (o _ (KubeStatusUpdate _)) as [e|]; [|done].
  by destruct (IsNotFound e).
Qed.

(** Case analysis on every test of the merge. *)
Ltac merge_cases :=
  unfold mergeBeforeResources, mergeResources, mergeRoleARN,
    mergeStackIDAndOutputs, mergeStatus, DeepEqual_outputs,
    DeepEqual_resources, remoteRoleARN;
  cbn;
  repeat first [ case_bool_decide | case_match ];
  cbn in *; simplify_eq; try done.

Lemma mergeBeforeResources_update (obj : Stack) (cfs : cfStack) :
  update (mergeBeforeResources obj cfs)
  = bool_decide (cfs_StackStatus cfs ≠ status_StackStatus (Status obj))
    || bool_decide (cfs_StackId cfs ≠ status_StackID (Status obj))
    || negb (DeepEqual_outputs (buildOutputs cfs) (status_Outputs (Status obj))).
Proof. merge_cases. Qed.

Lemma mergeBeforeResources_StackStatus (obj : Stack) (cfs : cfStack) :
  status_StackStatus (Status (merged (mergeBeforeResources obj cfs)))
  = cfs_StackStatus cfs.
Proof. merge_cases; by apply dec_stable. Qed.

Lemma mergeBeforeResources_StackID (obj : Stack) (cfs : cfStack) :
  status_StackID (Status (merged (mergeBeforeResources obj cfs)))
  = cfs_StackId cfs.
Proof. merge_cases; by apply dec_stable. Qed.

Lemma mergeBeforeResources_Outputs (obj : Stack) (cfs : cfStack) :
  status_Outputs (Status (merged (mergeBeforeResources obj cfs)))
  = if (bool_decide (cfs_StackId cfs ≠ status_StackID (Status obj))
        || negb (DeepEqual_outputs (buildOutputs cfs)
                   (status_Outputs (Status obj))))
       && bool_decide (0 < size (buildOutputs cfs))
    then Some (buildOutputs cfs)
    else status_Outputs (Status obj).
Proof. merge_cases. Qed.

Lemma mergeBeforeResources_RoleARN (obj : Stack) (cfs : cfStack) :
  status_RoleARN (Status (merged (mergeBeforeResources obj cfs)))
  = remoteRoleARN cfs.
Proof. merge_cases; by apply dec_stable. Qed.

Lemma mergeBeforeResources_Resources (obj : Stack) (cfs : cfStack) :
  status_Resources (Status (merged (mergeBeforeResources obj cfs)))
  = status_Resources (Status obj).
Proof. merge_cases. Qed.

Lemma mergeResources_update (obj : Stack) (cfs : cfStack)
    (resources : slice StackResource) :
  update (mergeResources resources (mergeBeforeResources obj cfs))
  = flaggedChange obj cfs resources.
Proof.
  unfold mergeResources, flaggedChange.
  rewrite mergeBeforeResources_Resources, <- mergeBeforeResources_update.
  destruct (DeepEqual_resources resources (status_Resources (Status obj)));
    cbn; [by rewrite orb_false_r | by rewrite orb_true_r].
Qed.

Lemma mergeRoleARN_Outputs (cfs : cfStack) (m : merge) :
  status_Outputs (Status (merged (mergeRoleARN cfs m)))
  = status_Outputs (Status (merged m)).
Proof.
  unfold mergeRoleARN. by destruct (cfs_RoleARN cfs); [case_bool_decide|].
Qed.

Lemma mergeResources_Outputs (resources : slice StackResource) (m : merge) :
  status_Outputs (Status (merged (mergeResources resources m)))
  = status_Outputs (Status (merged m)).
Proof. unfold mergeResources. by case_match. Qed.

Lemma mergeResources_RoleARN (resources : slice StackResource) (m : merge) :
  status_RoleARN (Status (merged (mergeResources resources m)))
  = status_RoleARN (Status (merged m)).
Proof. unfold mergeResources. by case_match. Qed.

(** What the code does: with the resources fetched, the merge persists, with
    one call, exactly when the status, the identifier, the outputs or the
    resources differ from what is stored.  The role ARN plays no part. *)
Lemma updateStackStatus_persists (o : oracle) (h : list event) (obj : Stack)
    (cfs : cfStack) (rest : list (option cfStack))
    (resources : slice StackResource) :
  o h (HelperGetStackResources (cfs_StackId cfs)) = inl resources →
  count isKubeStatusUpdate (run o h (updateStackStatus obj (Some cfs :: rest))).2
  = if flaggedChange obj cfs resources then 1 else 0.
Proof.
  intros Hfetch. rewrite run_updateStackStatus. cbv zeta.
  rewrite mergeBeforeResources_StackID, Hfetch, mergeResources_update.
  by destruct (flaggedChange obj cfs resources).
Qed.

(** C1, at the input where the claim fails.  When the remote stack differs
    from the stored status in the role ARN alone, the merge records the new
    role ARN in the object it returns and issues no persistence call: its
    only call is the fetch of the resources. *)
Theorem updateStackStatus_role_arn_alone (o : oracle) (h : list event)
    (obj : Stack) (cfs : cfStack) (rest : list (option cfStack))
    (resources : slice StackResource) :
  cfs_StackStatus cfs = status_StackStatus (Status obj) →
  cfs_StackId cfs = status_StackID (Status obj) →
  Some (buildOutputs cfs) = status_Outputs (Status obj) →
  o h (HelperGetStackResources (cfs_StackId cfs)) = inl resources →
  resources = status_Resources (Status obj) →
  remoteRoleARN cfs ≠ status_RoleARN (Status obj) →
  let '((err, obj'), calls) :=
    run o h (updateStackStatus obj (Some cfs :: rest)) in
  err = None
  ∧ calls = [Ev (HelperGetStackResources (cfs_StackId cfs)) (inl resources)]
  ∧ count isKubeStatusUpdate calls = 0
  ∧ status_RoleARN (Status obj') = remoteRoleARN cfs
  ∧ status_RoleARN (Status obj') ≠ status_RoleARN (Status obj).
Proof.
  intros Hstatus Hid Houtputs Hfetch Hresources Hrole.
  rewrite run_updateStackStatus. cbv zeta.
  rewrite mergeBeforeResources_StackID, Hfetch, mergeResources_update.
  assert (flaggedChange obj cfs resources = false) as ->.
  { unfold flaggedChange, DeepEqual_outputs, DeepEqual_resources.
    rewrite !bool_decide_eq_false_2 by (by intros []).
    by rewrite !bool_decide_eq_true_2 by done. }
  rewrite mergeResources_RoleARN, mergeBeforeResources_RoleARN.
  by split_and!.
Qed.

(** C6. When the map built from the outputs of the remote stack is not
    deeply equal to the stored one, the merge sets [update]; it overwrites the
    stored map only when the new one is non-empty, and keeps the stored one
    when the new one is empty.  With the resources fetched, the object is
    then persisted with exactly one call, and it is that object the merge
    returns. *)
Theorem updateStackStatus_outputs_differ (o : oracle) (h : list event)
    (obj : Stack) (cfs : cfStack) (rest : list (option cfStack)) :
  Some (buildOutputs cfs) ≠ status_Outputs (Status obj) →
  let outputs := buildOutputs cfs in
  let m :=
    mergeStackIDAndOutputs cfs outputs
      (mergeStatus cfs {| update := false; merged := obj |}) in
  let '((_, obj'), calls) :=
    run o h (updateStackStatus obj (Some cfs :: rest)) in
  update m = true
  ∧ status_Outputs (Status (merged m))
    = (if bool_decide (outputs = ∅) then status_Outputs (Status obj)
       else Some outputs)
  ∧ status_Outputs (Status obj') = status_Outputs (Status (merged m))
  ∧ (∀ resources : slice StackResource,
       o h (HelperGetStackResources (cfs_StackId cfs)) = inl resources →
       count isKubeStatusUpdate calls = 1
       ∧ ∃ persisted : option error,
           calls = [Ev (HelperGetStackResources (cfs_StackId cfs))
                       (inl resources);
                    Ev (KubeStatusUpdate obj') persisted]).
Proof.
  intros Hdiff outputs m.
  assert (update (mergeBeforeResources obj cfs) = true) as Hflag.
  { rewrite mergeBeforeResources_update. unfold DeepEqual_outputs.
    rewrite (bool_decide_eq_false_2 (Some _ = _)) by done.
    by rewrite orb_true_r. }
  assert (status_Outputs (Status (merged (mergeBeforeResources obj cfs)))
          = status_Outputs (Status (merged m))) as Hsame.
  { unfold mergeBeforeResources. by rewrite mergeRoleARN_Outputs. }
  assert (update m = true) as Hm by done.
  assert (status_Outputs (Status (merged m))
          = (if bool_decide (outputs = ∅) then status_Outputs (Status obj)
             else Some outputs)) as Hkept.
  { rewrite <- Hsame, mergeBeforeResources_Outputs. unfold DeepEqual_outputs.
    rewrite (bool_decide_eq_false_2 (Some _ = _)) by done.
    rewrite orb_true_r. cbn. fold outputs.
    destruct (decide (outputs = ∅)) as [Hempty | Hempty].
    - rewrite (bool_decide_eq_true_2 _ Hempty), Hempty, map_size_empty.
      by rewrite bool_decide_eq_false_2 by lia.
    - rewrite (bool_decide_eq_false_2 _ Hempty).
      rewrite bool_decide_eq_true_2; [done|].
      apply map_size_non_empty_iff in Hempty. lia. }
  rewrite run_updateStackStatus. cbv zeta.
  rewrite mergeBeforeResources_StackID.
  destruct (o h (HelperGetStackResources (cfs_StackId cfs)))
    as [resources | err] eqn:Hfetch.
  - rewrite mergeResources_update.
    assert (flaggedChange obj cfs resources = true) as ->.
    { unfold flaggedChange. by rewrite <- mergeBeforeResources_update, Hflag. }
    split_and!; [done | done | by rewrite mergeResources_Outputs |].
    intros ? [= <-]. split; [done | by eexists].
  - split_and!; [done | done | done | by intros ? [=]].
Qed.

(** ** The receiver *)

Lemma BeingFollowed_true (f : StackFollower) (stackId : string) :
  BeingFollowed f stackId = true ↔ stackId ∈ dom (mapPollingList f).
Proof. unfold BeingFollowed. by rewrite bool_decide_eq_true, elem_of_dom. Qed.

Lemma Receiver_step_followed (f : StackFollower) (toBeFollowed : Stack) :
  BeingFollowed f (status_StackID (Status toBeFollowed)) = true →
  Receiver_step f toBeFollowed = f.
Proof. unfold Receiver_step. by intros ->. Qed.

Lemma Receiver_step_new (f : StackFollower) (toBeFollowed : Stack) :
  BeingFollowed f (status_StackID (Status toBeFollowed)) = false →
  let f' := Receiver_step f toBeFollowed in
  mapPollingList f'
  = <[status_StackID (Status toBeFollowed) :=
        {| nn_Namespace := Namespace toBeFollowed;
           nn_Name := Name toBeFollowed |}]> (mapPollingList f)
  ∧ size (mapPollingList f') = S (size (mapPollingList f))
  ∧ StacksFollowing f' = (StacksFollowing f + 1)%Z
  ∧ StacksFollowed f' = (StacksFollowed f + 1)%Z.
Proof.
  intros Hnew. unfold Receiver_step. rewrite Hnew. cbn.
  split_and!; try done.
  apply map_size_insert_None.
  apply not_true_iff_false in Hnew. rewrite BeingFollowed_true in Hnew.
  by apply not_elem_of_dom.
Qed.

Lemma Receiver_step_dom (f : StackFollower) (toBeFollowed : Stack) :
  dom (mapPollingList (Receiver_step f toBeFollowed))
  = dom (mapPollingList f) ∪ {[status_StackID (Status toBeFollowed)]}.
Proof.
  destruct (BeingFollowed f (status_StackID (Status toBeFollowed))) eqn:Hf.
  - rewrite Receiver_step_followed by done.
    apply BeingFollowed_true in Hf. set_solver.
  - destruct (Receiver_step_new f toBeFollowed Hf) as (-> & _).
    rewrite dom_insert_L. set_solver.
Qed.

Lemma Receiver_step_metrics (f : StackFollower) (toBeFollowed : Stack) :
  let f' := Receiver_step f toBeFollowed in
  (StacksFollowing f' - Z.of_nat (size (mapPollingList f'))
   = StacksFollowing f - Z.of_nat (size (mapPollingList f)))%Z
  ∧ (StacksFollowed f' - Z.of_nat (size (mapPollingList f'))
     = StacksFollowed f - Z.of_nat (size (mapPollingList f)))%Z.
Proof.
  destruct (BeingFollowed f (status_StackID (Status toBeFollowed))) eqn:Hf.
  - cbv zeta. by rewrite Receiver_step_followed by done.
  - destruct (Receiver_step_new f toBeFollowed Hf) as (_ & Hsize & Hg & Hc).
    cbv zeta. rewrite Hsize, Hg, Hc. lia.
Qed.

Lemma Receiver_step_kept (f : StackFollower) (toBeFollowed : Stack)
    (stackId : string) (name : NamespacedName) :
  mapPollingList f !! stackId = Some name →
  mapPollingList (Receiver_step f toBeFollowed) !! stackId = Some name.
Proof.
  intros Hin.
  destruct (BeingFollowed f (status_StackID (Status toBeFollowed))) eqn:Hf.
  - by rewrite Receiver_step_followed by done.
  - destruct (Receiver_step_new f toBeFollowed Hf) as (-> & _).
    rewrite lookup_insert_ne; [done|]. intros <-.
    apply not_true_iff_false in Hf. apply Hf, BeingFollowed_true.
    apply elem_of_dom. by eexists.
Qed.

(** C7. For every sequence of requests the receiver takes from the channel:
    the registry holds one entry for each identifier it held before or that
    was requested, and so one entry for an identifier however often it is
    requested; an entry already there is left as it is; and both the gauge
    of stacks being followed and the counter of stacks followed rise by
    exactly the number of entries added.  One request for a registered
    identifier changes nothing; one request for a new identifier adds its
    entry and adds one to the gauge and one to the counter. *)
Theorem Receiver_registers_once (f : StackFollower) (received : list Stack) :
  let f' := Receiver f received in
  dom (mapPollingList f')
  = dom (mapPollingList f)
    ∪ list_to_set ((λ o, status_StackID (Status o)) <$> received)
  ∧ (∀ stackId name,
       mapPollingList f !! stackId = Some name →
       mapPollingList f' !! stackId = Some name)
  ∧ (StacksFollowing f'
     = StacksFollowing f
       + (Z.of_nat (size (mapPollingList f'))
          - Z.of_nat (size (mapPollingList f))))%Z
  ∧ (StacksFollowed f'
     = StacksFollowed f
       + (Z.of_nat (size (mapPollingList f'))
          - Z.of_nat (size (mapPollingList f))))%Z
  ∧ (∀ toBeFollowed : Stack,
       if BeingFollowed f' (status_StackID (Status toBeFollowed))
       then Receiver f' [toBeFollowed] = f'
       else
         let f'' := Receiver f' [toBeFollowed] in
         mapPollingList f''
         = <[status_StackID (Status toBeFollowed) :=
               {| nn_Namespace := Namespace toBeFollowed;
                  nn_Name := Name toBeFollowed |}]> (mapPollingList f')
         ∧ size (mapPollingList f'') = S (size (mapPollingList f'))
         ∧ StacksFollowing f'' = (StacksFollowing f' + 1)%Z
         ∧ StacksFollowed f'' = (StacksFollowed f' + 1)%Z).
Proof.
  cbv zeta. split_and!.
  - revert f. induction received as [| o received IH]; intros f; cbn.
    + set_solver.
    + unfold Receiver in *. rewrite IH, Receiver_step_dom. set_solver.
  - revert f. induction received as [| o received IH]; intros f; [done|].
    intros stackId name Hin. cbn. unfold Receiver in *.
    by apply IH, Receiver_step_kept.
  - cut ((StacksFollowing (Receiver f received)
          - Z.of_nat (size (mapPollingList (Receiver f received)))
          = StacksFollowing f - Z.of_nat (size (mapPollingList f)))%Z); [lia|].
    revert f. induction received as [| o received IH]; intros f; [done|].
    cbn. unfold Receiver in *. rewrite IH.
    by destruct (Receiver_step_metrics f o) as [-> _].
  - cut ((StacksFollowed (Receiver f received)
          - Z.of_nat (size (mapPollingList (Receiver f received)))
          = StacksFollowed f - Z.of_nat (size (mapPollingList f)))%Z); [lia|].
    revert f. induction received as [| o received IH]; intros f; [done|].
    cbn. unfold Receiver in *. rewrite IH.
    by destruct (Receiver_step_metrics f o) as [_ ->].
  - intros toBeFollowed. set (f' := Receiver f received).
    destruct (BeingFollowed f' (status_StackID (Status toBeFollowed))) eqn:Hf.
    + by apply Receiver_step_followed.
    + by apply Receiver_step_new.
Qed.

(** ** The poll worker *)

(** [processStack] always lets the iteration go on; it leaves the follower
    as it is or stops following its own entry. *)
Lemma processStack_result (o : oracle) (h : list event) (stackId : string)
    (name : NamespacedName) (f : StackFollower) :
  let '((continue, f'), _) := run o h (processStack stackId name f) in
  continue = true ∧ (f' = f ∨ f' = stopFollowing f stackId).
Proof.
  unfold processStack. rewrite run_bind. cbn.
  destruct (o h (KubeGet name)) as [obj | err]; cbn.
  - destruct (o _ (HelperGetStack obj)) as [cfs | err]; cbn.
    + rewrite run_bind.
      destruct (run o _ (updateStackStatus obj [Some cfs])) as [[err obj'] t].
      cbn. destruct err; cbn; [by eauto|].
      destruct (StackInTerminalState _ _); cbn; by eauto.
    + destruct (bool_decide (err = ErrStackNotFound)); cbn; by eauto.
  - destruct (IsNotFound err); cbn; by eauto.
Qed.

Lemma processStack_continue (o : oracle) (h : list event) (stackId : string)
    (name : NamespacedName) (f : StackFollower) :
  (run o h (processStack stackId name f)).1.1 = true.
Proof.
  pose proof (processStack_result o h stackId name f) as H.
  destruct (run o h (processStack stackId name f)) as [[c f'] t]. by destruct H.
Qed.

Lemma processStack_dom (o : oracle) (h : list event) (stackId : string)
    (name : NamespacedName) (f : StackFollower) :
  dom (mapPollingList (run o h (processStack stackId name f)).1.2)
  ⊆ dom (mapPollingList f).
Proof.
  pose proof (processStack_result o h stackId name f) as H.
  destruct (run o h (processStack stackId name f)) as [[c f'] t].
  destruct H as [_ [-> | ->]]; cbn; [done|]. rewrite dom_delete_L. set_solver.
Qed.

Lemma processStack_helper (o : oracle) (h : list event) (stackId : string)
    (name : NamespacedName) (f : StackFollower) :
  f_CloudFormationHelper (run o h (processStack stackId name f)).1.2
  = f_CloudFormationHelper f.
Proof.
  pose proof (processStack_result o h stackId name f) as H.
  destruct (run o h (processStack stackId name f)) as [[c f'] t].
  by destruct H as [_ [-> | ->]].
Qed.

(** The entry of a stack seen in a terminal state, after a successful merge,
    is removed when it is processed. *)
Lemma processStack_terminal (o : oracle) (h : list event) (stackId : string)
    (name : NamespacedName) (f : StackFollower) (obj : Stack) (cfs : cfStack) :
  o h (KubeGet name) = inl obj →
  o (h ++ [Ev (KubeGet name) (inl obj)]) (HelperGetStack obj) = inl cfs →
  StackInTerminalState (f_CloudFormationHelper f) (cfs_StackStatus cfs) = true →
  (run o (h ++ [Ev (KubeGet name) (inl obj)]
            ++ [Ev (HelperGetStack obj) (inl cfs)])
     (updateStackStatus obj [Some cfs])).1.1 = None →
  (run o h (processStack stackId name f)).1.2 = stopFollowing f stackId.
Proof.
  intros Hget Hfetch Hterminal Hmerge.
  unfold processStack. rewrite run_bind. cbn. rewrite Hget. cbn.
  rewrite Hfetch. cbn. rewrite run_bind. rewrite <- app_assoc.
  destruct (run o _ (updateStackStatus obj [Some cfs])) as [[err obj'] t].
  cbn in Hmerge. subst err. cbn. by rewrite Hterminal.
Qed.

Lemma run_Range_cons (o : oracle) (h : list event) (stackId : string)
    (name : NamespacedName) (rest : list (string * NamespacedName))
    (f : StackFollower) :
  run o h (Range ((stackId, name) :: rest) processStack f) =
    let '((_, f1), t1) := run o h (processStack stackId name f) in
    let '(f2, t2) := run o (h ++ t1) (Range rest processStack f1) in
    (f2, t1 ++ t2).
Proof.
  cbn [Range]. rewrite run_bind.
  pose proof (processStack_continue o h stackId name f) as Hc.
  destruct (run o h (processStack stackId name f)) as [[c f1] t1].
  cbn in Hc. by subst c.
Qed.

Lemma run_Range_app (o : oracle) (h : list event)
    (before after : list (string * NamespacedName)) (f : StackFollower) :
  run o h (Range (before ++ after) processStack f) =
    let '(f1, t1) := run o h (Range before processStack f) in
    let '(f2, t2) := run o (h ++ t1) (Range after processStack f1) in
    (f2, t1 ++ t2).
Proof.
  revert h f. induction before as [| [k v] before IH]; intros h f.
  - cbn. rewrite app_nil_r. by destruct (run o h (Range after processStack f)).
  - rewrite <- app_comm_cons, !run_Range_cons.
    destruct (run o h (processStack k v f)) as [[c f1] t1].
    rewrite IH.
    destruct (run o (h ++ t1) (Range before processStack f1)) as [f2 t2].
    rewrite <- app_assoc.
    destruct (run o (h ++ t1 ++ t2) (Range after processStack f2)) as [f3 t3].
    by rewrite app_assoc.
Qed.

Lemma Range_dom (o : oracle) (h : list event)
    (entries : list (string * NamespacedName)) (f : StackFollower) :
  dom (mapPollingList (run o h (Range entries processStack f)).1)
  ⊆ dom (mapPollingList f).
Proof.
  revert h f. induction entries as [| [k v] entries IH]; intros h f; [done|].
  rewrite run_Range_cons.
  pose proof (processStack_dom o h k v f) as Hd.
  destruct (run o h (processStack k v f)) as [[c f1] t1].
  pose proof (IH (h ++ t1) f1) as Hr.
  destruct (run o (h ++ t1) (Range entries processStack f1)) as [f2 t2].
  cbn in *. set_solver.
Qed.

Lemma Range_helper (o : oracle) (h : list event)
    (entries : list (string * NamespacedName)) (f : StackFollower) :
  f_CloudFormationHelper (run o h (Range entries processStack f)).1
  = f_CloudFormationHelper f.
Proof.
  revert h f. induction entries as [| [k v] entries IH]; intros h f; [done|].
  rewrite run_Range_cons.
  pose proof (processStack_helper o h k v f) as Hd.
  destruct (run o h (processStack k v f)) as [[c f1] t1].
  pose proof (IH (h ++ t1) f1) as Hr.
  destruct (run o (h ++ t1) (Range entries processStack f1)) as [f2 t2].
  cbn in *. congruence.
Qed.

Lemma Worker_dom (o : oracle) (h : list event) (ticks : nat)
    (f : StackFollower) :
  dom (mapPollingList (run o h (Worker ticks f)).1) ⊆ dom (mapPollingList f).
Proof.
  revert h f. induction ticks as [| n IH]; intros h f; [done|].
  cbn [Worker]. rewrite run_bind.
  pose proof (Range_dom o h (map_to_list (mapPollingList f)) f) as Hd.
  unfold Worker_tick.
  destruct (run o h (Range _ processStack f)) as [f1 t1].
  pose proof (IH (h ++ t1) f1) as Hr.
  destruct (run o (h ++ t1) (Worker n f1)) as [f2 t2].
  cbn in *. set_solver.
Qed.

(** The pass visits registered entries only. *)
Lemma Range_calls_keys (o : oracle) (h : list event)
    (entries : list (string * NamespacedName)) (f : StackFollower)
    (stackId : string) :
  stackId ∈ (Range_calls o h entries f).*1 → stackId ∈ entries.*1.
Proof.
  revert h f. induction entries as [| [k v] entries IH]; intros h f; [done|].
  cbn. destruct (run o h (processStack k v f)) as [[c f1] t1]. cbn.
  rewrite !elem_of_cons. intros [-> | Hin]; [by left|].
  right. destruct c; [by eapply IH | by apply elem_of_nil in Hin].
Qed.

Lemma Worker_calls_keys (o : oracle) (h : list event) (ticks : nat)
    (f : StackFollower) (stackId : string) :
  stackId ∈ (Worker_calls o h ticks f).*1 → stackId ∈ dom (mapPollingList f).
Proof.
  revert h f. induction ticks as [| n IH]; intros h f.
  - by intros ?%elem_of_nil.
  - cbn [Worker_calls].
    pose proof (Range_dom o h (map_to_list (mapPollingList f)) f) as Hd.
    unfold Worker_tick.
    destruct (run o h (Range _ processStack f)) as [f1 t1].
    rewrite fmap_app, elem_of_app. intros [Hin | Hin].
    + apply Range_calls_keys in Hin.
      apply list_elem_of_fmap in Hin as ([k v] & -> & Hin).
      apply elem_of_map_to_list in Hin. apply elem_of_dom. by eexists.
    + apply IH in Hin. cbn in Hd. set_solver.
Qed.

(** The calls of a pass are the calls of its entries, in order. *)
Lemma Range_calls_concat (o : oracle) (h : list event)
    (entries : list (string * NamespacedName)) (f : StackFollower) :
  (run o h (Range entries processStack f)).2
  = concat (Range_calls o h entries f).*2.
Proof.
  revert h f. induction entries as [| [k v] entries IH]; intros h f; [done|].
  rewrite run_Range_cons. cbn [Range_calls].
  pose proof (processStack_continue o h k v f) as Hc.
  destruct (run o h (processStack k v f)) as [[c f1] t1].
  cbn in Hc. subst c. specialize (IH (h ++ t1) f1).
  destruct (run o (h ++ t1) (Range entries processStack f1)) as [f2 t2].
  cbn in *. by rewrite IH.
Qed.

Lemma Worker_calls_concat (o : oracle) (h : list event) (ticks : nat)
    (f : StackFollower) :
  (run o h (Worker ticks f)).2 = concat (Worker_calls o h ticks f).*2.
Proof.
  revert h f. induction ticks as [| n IH]; intros h f; [done|].
  cbn [Worker Worker_calls]. rewrite run_bind.
  pose proof (Range_calls_concat o h (map_to_list (mapPollingList f)) f) as Hr.
  unfold Worker_tick.
  destruct (run o h (Range _ processStack f)) as [f1 t1].
  specialize (IH (h ++ t1) f1).
  destruct (run o (h ++ t1) (Worker n f1)) as [f2 t2].
  cbn in *. by rewrite fmap_app, concat_app, <- Hr, <- IH.
Qed.

(** C8. Take a pass of the poll worker over a registry that holds an entry,
    and suppose that when the pass comes to it the resource is found, the
    remote stack is fetched in a terminal state and the status merge
    succeeds.  Then the entry is gone from the registry when the pass ends;
    and in all later passes, as long as the identifier is not handed to the
    receiver again, the entry stays out and no call is issued for it (the
    calls of the worker are the calls of the entries it visits, and it visits
    registered entries only). *)
Theorem Worker_tick_terminal (o : oracle) (h : list event) (f : StackFollower)
    (stackId : string) (name : NamespacedName)
    (before after : list (string * NamespacedName)) (obj : Stack)
    (cfs : cfStack) :
  map_to_list (mapPollingList f) = before ++ (stackId, name) :: after →
  let h0 := h ++ (run o h (Range before processStack f)).2 in
  let h1 := h0 ++ [Ev (KubeGet name) (inl obj)] in
  let h2 := h1 ++ [Ev (HelperGetStack obj) (inl cfs)] in
  o h0 (KubeGet name) = inl obj →
  o h1 (HelperGetStack obj) = inl cfs →
  StackInTerminalState (f_CloudFormationHelper f) (cfs_StackStatus cfs) = true →
  (run o h2 (updateStackStatus obj [Some cfs])).1.1 = None →
  let f' := (run o h (Worker_tick f)).1 in
  (stackId ∉ dom (mapPollingList f'))
  ∧ (∀ (o' : oracle) (h' : list event) (ticks : nat),
       (stackId ∉ dom (mapPollingList (run o' h' (Worker ticks f')).1))
       ∧ (stackId ∉ (Worker_calls o' h' ticks f').*1)
       ∧ (run o' h' (Worker ticks f')).2
         = concat (Worker_calls o' h' ticks f').*2).
Proof.
  intros Hlist h0 h1 h2 Hget Hfetch Hterminal Hmerge f'.
  assert (stackId ∉ dom (mapPollingList f')) as Hgone.
  { subst f'. unfold Worker_tick. rewrite Hlist, run_Range_app.
    pose proof (Range_helper o h before f) as Hhelper.
    subst h2 h1 h0.
    destruct (run o h (Range before processStack f)) as [f0 t0].
    cbn in Hget, Hfetch, Hmerge, Hhelper. rewrite run_Range_cons.
    rewrite <- Hhelper in Hterminal. rewrite <- app_assoc in Hmerge.
    pose proof (processStack_terminal o (h ++ t0) stackId name f0 obj cfs
                  Hget Hfetch Hterminal Hmerge) as Hstop.
    destruct (run o (h ++ t0) (processStack stackId name f0)) as [[c f1] t1].
    cbn in Hstop. subst f1.
    pose proof (Range_dom o ((h ++ t0) ++ t1) after
                  (stopFollowing f0 stackId)) as Hd.
    destruct (run o ((h ++ t0) ++ t1) (Range after processStack _))
      as [f2 t2].
    cbn in *. rewrite dom_delete_L in Hd. set_solver. }
  split; [done|]. intros o' h' ticks. split_and!.
  - pose proof (Worker_dom o' h' ticks f'). set_solver.
  - by intros ?%Worker_calls_keys.
  - apply Worker_calls_concat.
Qed.

(** ** Further properties: logs *)

Lemma count_app (P : event → bool) (t1 t2 : list event) :
  count P (t1 ++ t2) = count P t1 + count P t2.
Proof. unfold count. by rewrite filter_app, length_app. Qed.

Lemma count_cons (P : event → bool) (e : event) (t : list event) :
  count P (e :: t) = (if P e then 1 else 0) + count P t.
Proof.
  unfold count. rewrite filter_cons.
  destruct (P e); [by rewrite decide_True | by rewrite decide_False].
Qed.

Lemma count_nil (P : event → bool) : count P [] = 0.
Proof. done. Qed.

#[local] Arguments count : simpl never.

(** Counting over a log that is given call by call. *)
Ltac count_log :=
  cbn in *; rewrite ?count_app, ?count_cons, ?count_nil; cbn; try lia.

Lemma always_bind {A B : Type} (Q : event → Prop) (p : prog A)
    (f : A → prog B) :
  always Q p → (∀ a, always Q (f a)) → always Q (p ≫= f).
Proof.
  intros Hp Hf. induction p as [a | q k IH]; [by apply Hf|].
  cbn. intros a. destruct (Hp a) as [Hq Hk]. split; [done|]. by apply IH.
Qed.

Lemma always_run {A : Type} (Q : event → Prop) (p : prog A) (o : oracle)
    (h : list event) :
  always Q p → Forall Q (run o h p).2.
Proof.
  revert h. induction p as [a | q k IH]; intros h Hp; [by constructor|].
  cbn. destruct (Hp (o h q)) as [Hq Hk].
  specialize (IH (o h q) (h ++ [Ev q (o h q)]) Hk).
  destruct (run o (h ++ [Ev q (o h q)]) (k (o h q))) as [a t].
  by constructor.
Qed.

Lemma Forall_count (P : event → bool) (t : list event) :
  Forall (λ e, P e = false) t → count P t = 0.
Proof.
  induction 1 as [| e t He _ IH]; [done|]. by rewrite count_cons, He, IH.
Qed.


(** ** Further properties: tags and parameters *)

(** X2. The tags of a stack: the ownership pair first, the tag naming the
    owning resource second, then one tag for every default tag and one for
    every tag of the resource; compiling them never fails.  A key that occurs
    in both maps, or that repeats a fixed key, occurs as often in the list:
    nothing is merged. *)
Theorem stackTags_contents (r : StackReconciler) (loop : StackLoop) :
  let tags := (stackTags r loop).1 in
  (stackTags r loop).2 = None
  ∧ tags !! 0
    = Some {| tag_Key := controllerKey; tag_Value := controllerValue |}
  ∧ tags !! 1 = Some (ownerTag (instance loop))
  ∧ length tags
    = 2 + size (DefaultTags r) + size (spec_Tags (Spec (instance loop)))
  ∧ (∀ k v, DefaultTags r !! k = Some v →
            {| tag_Key := k; tag_Value := v |} ∈ tags)
  ∧ (∀ k v, spec_Tags (Spec (instance loop)) !! k = Some v →
            {| tag_Key := k; tag_Value := v |} ∈ tags)
  ∧ hasControllerTag tags = true.
Proof.
  cbn. split_and!; try done.
  - rewrite length_app, !length_fmap, !length_map_to_list. lia.
  - intros k v Hkv. do 2 right. apply elem_of_app. left.
    apply (list_elem_of_fmap_2 (λ kv, {| tag_Key := kv.1; tag_Value := kv.2 |})
             _ (k, v)).
    by apply elem_of_map_to_list.
  - intros k v Hkv. do 2 right. apply elem_of_app. right.
    apply (list_elem_of_fmap_2 (λ kv, {| tag_Key := kv.1; tag_Value := kv.2 |})
             _ (k, v)).
    by apply elem_of_map_to_list.
Qed.

(** X3. The parameters of a stack are the parameter map of the resource,
    entry by entry: one parameter per key, no key twice, and the map read
    back from the list is the map of the resource. *)
Theorem stackParameters_round_trip (r : StackReconciler) (loop : StackLoop) :
  let params := stackParameters r loop in
  list_to_map (parameterPair <$> params)
  = spec_Parameters (Spec (instance loop))
  ∧ NoDup (ParameterKey <$> params)
  ∧ length params = size (spec_Parameters (Spec (instance loop)))
  ∧ (∀ k v, {| ParameterKey := k; ParameterValue := v |} ∈ params
            ↔ spec_Parameters (Spec (instance loop)) !! k = Some v).
Proof.
  cbv zeta. unfold stackParameters.
  set (m := spec_Parameters (Spec (instance loop))).
  assert (parameterPair
            <$> ((λ kv : string * string,
                    {| ParameterKey := kv.1; ParameterValue := kv.2 |})
                   <$> map_to_list m) = map_to_list m) as Hpairs.
  { rewrite <- list_fmap_compose. rewrite <- (list_fmap_id (map_to_list m)) at 2.
    apply list_fmap_ext. by intros _ [k v] _. }
  assert (ParameterKey
            <$> ((λ kv : string * string,
                    {| ParameterKey := kv.1; ParameterValue := kv.2 |})
                   <$> map_to_list m) = (map_to_list m).*1) as Hkeys.
  { rewrite <- list_fmap_compose. apply list_fmap_ext. by intros _ [k v] _. }
  split_and!.
  - rewrite Hpairs. apply list_to_map_to_list.
  - rewrite Hkeys. apply NoDup_fst_map_to_list.
  - by rewrite length_fmap, length_map_to_list.
  - intros k v. rewrite <- elem_of_map_to_list. rewrite list_elem_of_fmap.
    split.
    + by intros ([k' v'] & [= -> ->] & Hin).
    + intros Hin. by exists (k, v).
Qed.

Lemma createStack_always (Q : event → Prop) (r : StackReconciler)
    (loop : StackLoop) :
  (∀ name a, Q (Ev (HelperGetStackName (instance loop) false) name)
             ∧ Q (Ev (CfCreateStack
                        (createStackInput r loop name (stackTags r loop).1)) a)) →
  (∀ o a, Q (Ev (ChanSend o) a)) →
  always Q (createStack r loop).
Proof.
  intros Hcall Hsend. unfold createStack. destruct (DryRun r); [done|]. cbn.
  intros name. split; [by apply (Hcall name (inr ErrStackNotFound))|].
  destruct (bool_decide (spec_Template (Spec (instance loop)) = "")
            && bool_decide (spec_TemplateUrl (Spec (instance loop)) = ""));
    [done|].
  cbn. intros created. split; [by apply Hcall|].
  destruct created as [id | e]; [|done]. cbn. intros []. by split.
Qed.

Lemma updateStack_always (Q : event → Prop) (r : StackReconciler)
    (loop : StackLoop) :
  (∀ name a, Q (Ev (HelperGetStackName (instance loop) true) name)
             ∧ Q (Ev (CfUpdateStack
                        (updateStackInput r loop name (stackTags r loop).1)) a)) →
  (∀ a, Q (Ev (FollowerUpdateStackStatus (instance loop)) a)) →
  (∀ o a, Q (Ev (ChanSend o) a)) →
  always Q (createStack r loop) →
  always Q (updateStack r loop).
Proof.
  intros Hcall Hrefresh Hsend Hcreate. unfold updateStack.
  destruct (DryRun r); [done|]. cbn.
  intros name. split; [by apply (Hcall name None)|].
  destruct (bool_decide (spec_Template (Spec (instance loop)) = "")
            && bool_decide (spec_TemplateUrl (Spec (instance loop)) = ""));
    [done|].
  cbn. intros updated. split; [by apply Hcall|].
  destruct updated as [err|]; [|cbn; intros []; by split].
  destruct (strings_Contains (Error err) "No updates are to be performed.").
  - cbn. intros [e o]. by split.
  - by destruct (strings_Contains (Error err) "does not exist").
Qed.

(** X1. Every CreateStack and every UpdateStack call of create and update
    logic, the re-creation after a failed update included, carries the
    ownership pair, which is what the ownership check looks for, and the tag
    that names the owning resource. *)
Theorem mutations_carry_ownership (o : oracle) (h : list event)
    (r : StackReconciler) (loop : StackLoop) :
  let marked (e : event) :=
    ∀ tags, callTags e = Some tags →
            hasControllerTag tags = true ∧ ownerTag (instance loop) ∈ tags in
  Forall marked (run o h (createStack r loop)).2
  ∧ Forall marked (run o h (updateStack r loop)).2.
Proof.
  intros marked.
  assert (∀ tags, tags = (stackTags r loop).1 →
            hasControllerTag tags = true ∧ ownerTag (instance loop) ∈ tags)
    as Htags.
  { intros tags ->. split; [done|]. cbn. right. left. }
  assert (always marked (createStack r loop)) as Hcreate.
  { apply createStack_always.
    - intros name a. split; intros tags [= <-]. by apply Htags.
    - by intros obj a tags [=]. }
  split; apply always_run; [done|].
  apply updateStack_always; [| | |done].
  - intros name a. split; intros tags [= <-]. by apply Htags.
  - by intros a tags [=].
  - by intros obj a tags [=].
Qed.

(** ** Further properties: the remote stack within a pass *)

(** X4. The remote stack is fetched at most once per pass: [getStack]
    without forcing issues one call at most; after a fetch that succeeded any
    further unforced [getStack] of the pass issues no call and returns the
    same stack; after a fetch that failed the pass holds no stack, so the next
    one asks again.  With forcing it always issues exactly one call. *)
Theorem getStack_memoised (o : oracle) (h : list event) (r : StackReconciler)
    (loop : StackLoop) :
  let '((res, loop'), calls) := run o h (getStack r loop false) in
  length calls ≤ 1
  ∧ count isHelperGetStack calls = length calls
  ∧ (∀ s, res = inl s →
          ∀ (o' : oracle) (h' : list event),
            run o' h' (getStack r loop' false) = ((inl s, loop'), []))
  ∧ (∀ e, res = inr e → length calls = 1 ∧ stack loop' = None)
  ∧ (run o h (getStack r loop true)).2
    = [Ev (HelperGetStack (instance loop))
          (o h (HelperGetStack (instance loop)))].
Proof.
  assert ((run o h (getStack r loop true)).2
          = [Ev (HelperGetStack (instance loop))
                (o h (HelperGetStack (instance loop)))]) as Hforced.
  { unfold getStack. cbn.
    destruct (o h (HelperGetStack (instance loop))) as [s | e]; [done|].
    by destruct (strings_Contains (Error e) "does not exist"). }
  rewrite run_getStack. destruct (stack loop) as [s|] eqn:Hs.
  - split_and!; try done; [cbn; lia|].
    intros s' [= <-] o' h'. by rewrite run_getStack, Hs.
  - cbv zeta.
    destruct (o h (HelperGetStack (instance loop))) as [s | e] eqn:Hfetch.
    + split_and!; try done. intros s' [= <-] o' h'. by rewrite run_getStack.
    + split_and!; try done.
Qed.

(** ** Further properties: the reconcile pass *)

Lemma Reconcile_unfold (r : StackReconciler) (name : NamespacedName) :
  Reconcile r name =
    got ← call (KubeGet name);
    match got with
    | inr err =>
        if IsNotFound err then Ret (ctrl_Result, None)
        else Ret (ctrl_Result, Some err)
    | inl o =>
        let loop := {| req := name; instance := o; stack := None |} in
        if bool_decide (is_Some (DeletionTimestamp o))
        then reconcileDeletion r loop
        else reconcileLive r loop
    end.
Proof. reflexivity. Qed.

Lemma run_Reconcile_found (o : oracle) (h : list event) (r : StackReconciler)
    (name : NamespacedName) (obj : Stack) :
  o h (KubeGet name) = inl obj →
  run o h (Reconcile r name) =
    let got := Ev (KubeGet name) (inl obj) in
    let loop := {| req := name; instance := obj; stack := None |} in
    let '(res, calls) :=
      run o (h ++ [got])
        (if bool_decide (is_Some (DeletionTimestamp obj))
         then reconcileDeletion r loop else reconcileLive r loop) in
    (res, got :: calls).
Proof.
  intros Hget. rewrite Reconcile_unfold, run_bind. cbn. rewrite Hget. cbn.
  by destruct (run o _ _).
Qed.

(** X6. When the resource cannot be read the pass ends there: the read is
    its only call; a resource that is not found is no error, any other
    failure of the read is the error of the pass. *)
Theorem Reconcile_get_fails (o : oracle) (h : list event)
    (r : StackReconciler) (name : NamespacedName) (err : error) :
  o h (KubeGet name) = inr err →
  run o h (Reconcile r name)
  = ((ctrl_Result, if IsNotFound err then None else Some err),
     [Ev (KubeGet name) (inr err)]).
Proof.
  intros Hget. rewrite Reconcile_unfold, run_bind. cbn. rewrite Hget. cbn.
  by destruct (IsNotFound err).
Qed.

(** X7. A live resource without the current finalizer gets it and nothing
    else happens in that pass: the object is persisted once with the
    finalizer appended to the ones it had (a legacy finalizer stays), the
    error of the pass is the one of that write, and no call goes to
    CloudFormation or to the follower. *)
Theorem Reconcile_adds_finalizer (o : oracle) (h : list event)
    (r : StackReconciler) (name : NamespacedName) (obj : Stack) :
  o h (KubeGet name) = inl obj →
  DeletionTimestamp obj = None →
  stacksFinalizer ∉ Finalizers obj →
  let got := Ev (KubeGet name) (inl obj) in
  let obj' := set_Finalizers (Finalizers obj ++ [stacksFinalizer]) obj in
  let persisted := o (h ++ [got]) (KubeUpdate obj') in
  run o h (Reconcile r name)
  = ((ctrl_Result, persisted), [got; Ev (KubeUpdate obj') persisted]).
Proof.
  intros Hget Hlive Hnew. rewrite (run_Reconcile_found _ _ _ _ _ Hget).
  cbv zeta. rewrite Hlive.
  rewrite bool_decide_eq_false_2 by (by intros [? [=]]).
  unfold reconcileLive, AddFinalizer, ContainsFinalizer. cbn.
  by rewrite bool_decide_eq_false_2 by done.
Qed.

(** Every call of a program passes a test on events: by cases on every
    answer and every branch. *)
Ltac always_cases :=
  unfold reconcileDeletion, reconcileLive, deleteStack, updateStack,
    createStack, hasOwnership, stackExists, getStack;
  repeat first
    [ done
    | progress cbn
    | progress intros
    | split
    | case_match ].

Lemma reconcileDeletion_never_creates (r : StackReconciler) (loop : StackLoop) :
  always (λ e, isCfCreateStack e = false ∧ isCfUpdateStack e = false)
    (reconcileDeletion r loop).
Proof. always_cases. Qed.

Lemma reconcileLive_never_deletes (r : StackReconciler) (loop : StackLoop) :
  always (λ e, isCfDeleteStack e = false) (reconcileLive r loop).
Proof. always_cases. Qed.

(** X8. A pass never crosses over: for a resource under deletion it issues
    no CreateStack and no UpdateStack call, and when the resource carries
    neither finalizer it issues no call at all after the read; for a live
    resource it issues no DeleteStack call. *)
Theorem Reconcile_never_crosses (o : oracle) (h : list event)
    (r : StackReconciler) (name : NamespacedName) (obj : Stack) :
  o h (KubeGet name) = inl obj →
  let calls := (run o h (Reconcile r name)).2 in
  (is_Some (DeletionTimestamp obj) →
   count isCfCreateStack calls = 0
   ∧ count isCfUpdateStack calls = 0
   ∧ (stacksFinalizer ∉ Finalizers obj → legacyFinalizer ∉ Finalizers obj →
      run o h (Reconcile r name)
      = ((ctrl_Result, None), [Ev (KubeGet name) (inl obj)])))
  ∧ (DeletionTimestamp obj = None → count isCfDeleteStack calls = 0).
Proof.
  intros Hget calls. subst calls.
  rewrite (run_Reconcile_found _ _ _ _ _ Hget). cbv zeta.
  set (got := Ev (KubeGet name) (inl obj)).
  set (loop := {| req := name; instance := obj; stack := None |}).
  split.
  - intros Hmarked. rewrite bool_decide_eq_true_2 by done.
    pose proof (always_run _ _ o (h ++ [got])
                  (reconcileDeletion_never_creates r loop)) as Hnever.
    split_and!.
    + destruct (run o (h ++ [got]) (reconcileDeletion r loop)) as [res t].
      cbn [snd] in *. rewrite count_cons. cbn. apply Forall_count.
      eapply Forall_impl; [exact Hnever | by intros e [? _]].
    + destruct (run o (h ++ [got]) (reconcileDeletion r loop)) as [res t].
      cbn [snd] in *. rewrite count_cons. cbn. apply Forall_count.
      eapply Forall_impl; [exact Hnever | by intros e [_ ?]].
    + intros Hcurrent Hlegacy. unfold reconcileDeletion, ContainsFinalizer.
      cbn. by rewrite !bool_decide_eq_false_2 by done.
  - intros Hlive. rewrite Hlive.
    rewrite bool_decide_eq_false_2 by (by intros [? [=]]).
    pose proof (always_run _ _ o (h ++ [got])
                  (reconcileLive_never_deletes r loop)) as Hnever.
    destruct (run o (h ++ [got]) (reconcileLive r loop)) as [res t].
    cbn [snd] in *. rewrite count_cons. cbn. by apply Forall_count.
Qed.

Lemma Reconcile_dry_run_always (r : StackReconciler) (name : NamespacedName) :
  DryRun r = true →
  always (λ e, isMutation e = false ∧ isFollowerUpdateStackStatus e = false)
    (Reconcile r name).
Proof.
  intros Hdry. rewrite Reconcile_unfold. cbn. intros got. split; [done|].
  destruct got as [obj | err]; [|by destruct (IsNotFound err)].
  cbn. case_match.
  - unfold reconcileDeletion, deleteStack. rewrite Hdry.
    repeat first [ done | progress cbn | progress intros | split | case_match ].
  - unfold reconcileLive, updateStack, createStack. rewrite Hdry.
    always_cases.
Qed.

(** X9. In dry-run mode a pass changes nothing on the remote side, whatever
    the resource and whatever the environment answers: it issues no
    CreateStack, no UpdateStack and no DeleteStack call, and no status
    refresh. *)
Theorem Reconcile_dry_run (o : oracle) (h : list event) (r : StackReconciler)
    (name : NamespacedName) :
  DryRun r = true →
  count isMutation (run o h (Reconcile r name)).2 = 0
  ∧ count isFollowerUpdateStackStatus (run o h (Reconcile r name)).2 = 0.
Proof.
  intros Hdry.
  pose proof (always_run _ _ o h (Reconcile_dry_run_always r name Hdry))
    as Hnever.
  split; apply Forall_count; eapply Forall_impl; try exact Hnever.
  - by intros e [? _].
  - by intros e [_ ?].
Qed.

(** ** Further properties: create, update and delete logic *)

(** X11. Create logic with dry-run off and a template body or reference:
    when CreateStack succeeds the returned identifier is recorded in the
    status of the resource (nothing else of it changes) and the resource, with
    that identifier, is sent to the follower; when CreateStack fails its
    error is returned, the resource is left as it was and nothing is sent. *)
Theorem createStack_outcome (o : oracle) (h : list event)
    (r : StackReconciler) (loop : StackLoop) :
  DryRun r = false →
  ¬ (spec_Template (Spec (instance loop)) = ""
     ∧ spec_TemplateUrl (Spec (instance loop)) = "") →
  let name := o h (HelperGetStackName (instance loop) false) in
  let named := Ev (HelperGetStackName (instance loop) false) name in
  let input := createStackInput r loop name (stackTags r loop).1 in
  run o h (createStack r loop) =
    match o (h ++ [named]) (CfCreateStack input) with
    | inl stackId =>
        let obj :=
          set_Status (set_StackID stackId (Status (instance loop)))
            (instance loop) in
        ((None, set_instance obj loop),
         [named; Ev (CfCreateStack input) (inl stackId); Ev (ChanSend obj) ()])
    | inr err =>
        ((Some err, loop), [named; Ev (CfCreateStack input) (inr err)])
    end.
Proof.
  intros Hdry Htemplate. cbv zeta. unfold createStack. rewrite Hdry. cbn.
  set (name := o h (HelperGetStackName (instance loop) false)).
  set (named := Ev (HelperGetStackName (instance loop) false) name).
  replace (bool_decide (spec_Template (Spec (instance loop)) = "")
           && bool_decide (spec_TemplateUrl (Spec (instance loop)) = ""))
    with false.
  2:{ symmetry. rewrite andb_false_iff, !bool_decide_eq_false.
      destruct (decide (spec_Template (Spec (instance loop)) = ""));
        [right; intros ?; by apply Htemplate | by left]. }
  cbn. set (input := createStackInput r loop name _).
  destruct (o (h ++ [named]) (CfCreateStack input)) as [stackId | err]; [|done].
  cbn. by destruct (o _ (ChanSend _)).
Qed.

(** X12. Update logic with dry-run off.  With neither template body nor
    reference it returns ErrMissingTemplateSpec after the name lookup and
    issues no UpdateStack call.  Otherwise it issues the call, and: on success
    the resource is sent to the follower; on "No updates are to be
    performed." the status is refreshed and nothing is sent; on any other
    error that says "does not exist" the rest is create logic on the same
    resource; every other error is returned as it is, with no further call. *)
Theorem updateStack_outcomes (o : oracle) (h : list event)
    (r : StackReconciler) (loop : StackLoop) :
  DryRun r = false →
  let spec := Spec (instance loop) in
  let name := o h (HelperGetStackName (instance loop) true) in
  let named := Ev (HelperGetStackName (instance loop) true) name in
  let input := updateStackInput r loop name (stackTags r loop).1 in
  let updated (res : option error) := Ev (CfUpdateStack input) res in
  (spec_Template spec = "" → spec_TemplateUrl spec = "" →
   run o h (updateStack r loop)
   = ((Some ErrMissingTemplateSpec, loop), [named]))
  ∧ (¬ (spec_Template spec = "" ∧ spec_TemplateUrl spec = "") →
     run o h (updateStack r loop) =
       match o (h ++ [named]) (CfUpdateStack input) with
       | None =>
           ((None, loop),
            [named; updated None; Ev (ChanSend (instance loop)) ()])
       | Some err =>
           if strings_Contains (Error err) "No updates are to be performed."
           then
             let refreshed :=
               o ((h ++ [named]) ++ [updated (Some err)])
                 (FollowerUpdateStackStatus (instance loop)) in
             ((refreshed.1, set_instance refreshed.2 loop),
              [named; updated (Some err);
               Ev (FollowerUpdateStackStatus (instance loop)) refreshed])
           else if strings_Contains (Error err) "does not exist"
           then
             let '(res, calls) :=
               run o ((h ++ [named]) ++ [updated (Some err)])
                 (createStack r loop) in
             (res, named :: updated (Some err) :: calls)
           else ((Some err, loop), [named; updated (Some err)])
       end).
Proof.
  intros Hdry. cbv zeta. unfold updateStack. rewrite Hdry. cbn.
  set (spec := Spec (instance loop)).
  set (name := o h (HelperGetStackName (instance loop) true)).
  set (named := Ev (HelperGetStackName (instance loop) true) name). split.
  - by intros -> ->.
  - intros Htemplate.
    replace (bool_decide (spec_Template spec = "")
             && bool_decide (spec_TemplateUrl spec = "")) with false.
    2:{ symmetry. rewrite andb_false_iff, !bool_decide_eq_false.
        destruct (decide (spec_Template spec = ""));
          [right; intros ?; by apply Htemplate | by left]. }
    cbn. set (input := updateStackInput r loop name _).
    destruct (o (h ++ [named]) (CfUpdateStack input)) as [err|].
    + destruct (strings_Contains (Error err) "No updates are to be performed.").
      * cbn. by destruct (o _ (FollowerUpdateStackStatus _)).
      * destruct (strings_Contains (Error err) "does not exist"); [|done].
        by destruct (run o _ (createStack r loop)).
    + cbn. by destruct (o _ (ChanSend _)).
Qed.

(** X13. Delete logic with dry-run off.  A lookup error that does not mean
    "not found" is returned and nothing is deleted.  When the stack carries
    the ownership pair, and also when it does not exist at all, DeleteStack is
    called with the name the helper gives; if the call succeeds the resource
    is sent to the follower, if it fails its error is returned and nothing is
    sent. *)
Theorem deleteStack_outcomes (o : oracle) (h : list event)
    (r : StackReconciler) (loop : StackLoop) :
  DryRun r = false →
  let seen := seenStack o h loop in
  let looked := lookupCalls o h loop in
  let loop' := afterLookup o h loop in
  let name := o (h ++ looked) (HelperGetStackName (instance loop) true) in
  let named := Ev (HelperGetStackName (instance loop) true) name in
  let input := {| di_StackName := name |} in
  let deleted := o ((h ++ looked) ++ [named]) (CfDeleteStack input) in
  run o h (deleteStack r loop) =
    match lookupError seen with
    | Some err => ((Some err, loop'), looked)
    | None =>
        if doesNotExist seen || carriesOwnershipTag seen then
          ((deleted, loop'),
           looked ++ [named; Ev (CfDeleteStack input) deleted]
             ++ match deleted with
                | None => [Ev (ChanSend (instance loop)) ()]
                | Some _ => []
                end)
        else ((None, loop'), looked)
    end.
Proof.
  intros Hdry seen looked loop' name named input deleted.
  unfold deleteStack. rewrite Hdry, run_bind, run_hasOwnership. cbv zeta.
  fold seen looked loop'.
  assert (instance loop' = instance loop) as Hinstance.
  { subst loop'. unfold afterLookup. by destruct (seenStack o h loop). }
  destruct (lookupError seen) as [err|]; [cbn; by rewrite app_nil_r|].
  destruct (doesNotExist seen || carriesOwnershipTag seen); cbn;
    [|by rewrite app_nil_r].
  rewrite Hinstance. fold name named input deleted.
  destruct deleted as [err|] eqn:Hdeleted; cbn; [done|].
  by destruct (o _ (ChanSend _)).
Qed.

(** ** Further properties: the decision of a pass *)

Lemma afterLookup_instance (o : oracle) (h : list event) (loop : StackLoop) :
  instance (afterLookup o h loop) = instance loop.
Proof. unfold afterLookup. by destruct (seenStack o h loop). Qed.

Lemma run_reconcileLive (o : oracle) (h : list event) (r : StackReconciler)
    (loop : StackLoop) :
  stacksFinalizer ∈ Finalizers (instance loop) →
  run o h (reconcileLive r loop) =
    let seen := seenStack o h loop in
    let looked := lookupCalls o h loop in
    let loop' := afterLookup o h loop in
    match lookupError seen with
    | Some e => ((ctrl_Result, Some e), looked)
    | None =>
        if negb (doesNotExist seen) && carriesOwnershipTag seen then
          if negb (StackInTerminalState (r_CloudFormationHelper r)
                     (loop_StackStatus loop'))
          then
            ((ctrl_Result, None), looked ++ [Ev (ChanSend (instance loop)) ()])
          else
            let '((err, _), calls) := run o (h ++ looked) (updateStack r loop') in
            ((ctrl_Result, err), looked ++ calls)
        else
          let '((err, _), calls) := run o (h ++ looked) (createStack r loop') in
          ((ctrl_Result, err), looked ++ calls)
    end.
Proof.
  intros Hfinalizer. unfold reconcileLive, ContainsFinalizer.
  rewrite bool_decide_eq_true_2 by done. cbn [negb].
  rewrite run_bind, run_stackExists. cbv zeta.
  pose proof (afterLookup_instance o h loop) as Hinstance.
  set (looked := lookupCalls o h loop).
  unfold lookupError, afterLookup in *.
  destruct (seenStack o h loop) as [s | e] eqn:Hseen; cbn.
  - destruct (bool_decide (cfs_StackStatus s = "DELETE_COMPLETE")); cbn.
    + rewrite run_bind.
      destruct (run o (h ++ looked) (createStack r _)) as [[err loop'] calls].
      cbn. by rewrite app_nil_r.
    + rewrite hasControllerTag_spec.
      destruct (bool_decide (_ ∈ cfs_Tags s)); cbn.
      * destruct (StackInTerminalState _ _); cbn.
        -- rewrite run_bind.
           destruct (run o (h ++ looked) (updateStack r _))
             as [[err loop'] calls].
           cbn. by rewrite app_nil_r.
        -- by destruct (o _ (ChanSend _)).
      * rewrite run_bind.
        destruct (run o (h ++ looked) (createStack r _)) as [[err loop'] calls].
        cbn. by rewrite app_nil_r.
  - destruct (strings_Contains (Error e) "does not exist"
              || bool_decide (e = ErrStackNotFound)); cbn.
    + rewrite run_bind.
      destruct (run o (h ++ looked) (createStack r _)) as [[err loop'] calls].
      cbn. by rewrite app_nil_r.
    + by rewrite app_nil_r.
Qed.

(** X10. The decision of a pass for a live resource that carries the
    current finalizer.  The remote stack is fetched once.  A lookup error that
    does not mean "not found" ends the pass with that error.  A stack that
    exists (found, and not in status DELETE_COMPLETE) and carries the
    ownership pair is handed to the follower when its status is not terminal,
    with no other call, and goes to update logic when it is terminal.  In
    every other case, also when a stack exists that lacks the ownership pair,
    the pass is create logic. *)
Theorem Reconcile_decision (o : oracle) (h : list event) (r : StackReconciler)
    (name : NamespacedName) (obj : Stack) :
  o h (KubeGet name) = inl obj →
  DeletionTimestamp obj = None →
  stacksFinalizer ∈ Finalizers obj →
  let got := Ev (KubeGet name) (inl obj) in
  let seen : cfStack + error := o (h ++ [got]) (HelperGetStack obj) in
  let fetched := Ev (HelperGetStack obj) seen in
  let loop :=
    {| req := name; instance := obj;
       stack := match seen with inl s => Some s | inr _ => None end |} in
  run o h (Reconcile r name) =
    match lookupError seen with
    | Some e => ((ctrl_Result, Some e), [got; fetched])
    | None =>
        if negb (doesNotExist seen) && carriesOwnershipTag seen then
          if negb (StackInTerminalState (r_CloudFormationHelper r)
                     (loop_StackStatus loop))
          then ((ctrl_Result, None), [got; fetched; Ev (ChanSend obj) ()])
          else
            let '((err, _), calls) :=
              run o ((h ++ [got]) ++ [fetched]) (updateStack r loop) in
            ((ctrl_Result, err), got :: fetched :: calls)
        else
          let '((err, _), calls) :=
            run o ((h ++ [got]) ++ [fetched]) (createStack r loop) in
          ((ctrl_Result, err), got :: fetched :: calls)
    end.
Proof.
  intros Hget Hlive Hfinalizer got seen fetched loop.
  rewrite (run_Reconcile_found _ _ _ _ _ Hget). cbv zeta. rewrite Hlive.
  rewrite bool_decide_eq_false_2 by (by intros [? [=]]).
  rewrite run_reconcileLive by done.
  unfold seenStack, lookupCalls, afterLookup, seenStack. cbn.
  fold got seen fetched.
  assert (loop = match seen with
                 | inl s =>
                     set_stack (Some s)
                       {| req := name; instance := obj; stack := None |}
                 | inr _ =>
                     set_stack None
                       {| req := name; instance := obj; stack := None |}
                 end) as <-.
  { subst loop. by destruct seen. }
  destruct (lookupError seen); [done|].
  destruct (negb (doesNotExist seen) && carriesOwnershipTag seen).
  - destruct (negb (StackInTerminalState _ _)); [done|].
    by destruct (run o _ (updateStack r loop)) as [[err loop'] calls].
  - by destruct (run o _ (createStack r loop)) as [[err loop'] calls].
Qed.






(** ** Further properties: the registry of the follower *)

(** X14. Registering and unregistering.  After [startFollowing] the
    identifier is being followed, under the name of the resource; after
    [stopFollowing] it is not; other identifiers are not touched by either.
    Following a new identifier and then stopping restores the registry and
    the gauge, while the counter of stacks followed keeps the step. *)
Theorem follow_round_trip (f : StackFollower) (o : Stack) (other : string) :
  let stackId := status_StackID (Status o) in
  BeingFollowed (startFollowing f o) stackId = true
  ∧ mapPollingList (startFollowing f o) !! stackId = Some (locator o)
  ∧ BeingFollowed (stopFollowing f stackId) stackId = false
  ∧ (other ≠ stackId →
     BeingFollowed (startFollowing f o) other = BeingFollowed f other
     ∧ BeingFollowed (stopFollowing f stackId) other = BeingFollowed f other)
  ∧ (BeingFollowed f stackId = false →
     let f' := stopFollowing (startFollowing f o) stackId in
     mapPollingList f' = mapPollingList f
     ∧ StacksFollowing f' = StacksFollowing f
     ∧ StacksFollowed f' = (StacksFollowed f + 1)%Z).
Proof.
  cbv zeta. unfold BeingFollowed, startFollowing, stopFollowing. cbn.
  split_and!.
  - apply bool_decide_eq_true. rewrite lookup_insert_eq. by eexists.
  - by rewrite lookup_insert_eq.
  - apply bool_decide_eq_false. rewrite lookup_delete_eq. by intros [? [=]].
  - intros Hother. split; apply bool_decide_ext.
    + by rewrite lookup_insert_ne.
    + by rewrite lookup_delete_ne.
  - intros Hnew. apply bool_decide_eq_false in Hnew.
    split_and!; [|lia|done].
    rewrite delete_insert_eq. apply delete_id.
    destruct (mapPollingList f !! status_StackID (Status o)) eqn:Hl; [|done].
    exfalso. apply Hnew. by eexists.
Qed.

Lemma Receiver_app (f : StackFollower) (l1 l2 : list Stack) :
  Receiver f (l1 ++ l2) = Receiver (Receiver f l1) l2.
Proof. unfold Receiver. apply foldl_app. Qed.

Lemma Receiver_all_followed (f : StackFollower) (received : list Stack) :
  Forall (λ o, BeingFollowed f (status_StackID (Status o)) = true) received →
  Receiver f received = f.
Proof.
  induction 1 as [| o received Ho _ IH]; [done|].
  unfold Receiver in *. cbn. by rewrite Receiver_step_followed.
Qed.

Lemma Receiver_dom (f : StackFollower) (received : list Stack) :
  dom (mapPollingList (Receiver f received))
  = dom (mapPollingList f)
    ∪ list_to_set ((λ o, status_StackID (Status o)) <$> received).
Proof.
  revert f. induction received as [| o received IH]; intros f; cbn.
  - set_solver.
  - unfold Receiver in *. cbn. rewrite IH, Receiver_step_dom. set_solver.
Qed.

(** X24. Handing the same requests to the receiver again changes nothing:
    the registry, the gauge and the counter are as after the first time,
    whether the requests are repeated at once or later. *)
Theorem Receiver_idempotent (f : StackFollower) (received : list Stack) :
  Receiver (Receiver f received) received = Receiver f received
  ∧ Receiver f (received ++ received) = Receiver f received.
Proof.
  assert (Receiver (Receiver f received) received = Receiver f received) as H.
  { apply Receiver_all_followed. apply Forall_forall. intros o Ho.
    apply BeingFollowed_true. rewrite Receiver_dom.
    apply elem_of_union_r, elem_of_list_to_set.
    by apply (list_elem_of_fmap_2 (λ o, status_StackID (Status o))). }
  split; [done|]. by rewrite Receiver_app.
Qed.

(** ** Further properties: one entry of a pass *)

(** X16. What processing one entry does when the stack is not seen at
    rest.  A resource that is not found ends the following with the read as
    the only call; any other failure of the read keeps the entry.  When the
    remote stack cannot be fetched the entry goes only if the error is
    ErrStackNotFound itself and stays for every other error, also for one
    whose text says "does not exist".  A failed merge keeps the entry, and so
    does a successful one for a stack that is not in a terminal state.  In
    every case the iteration goes on. *)
Theorem processStack_outcomes (o : oracle) (h : list event) (stackId : string)
    (name : NamespacedName) (f : StackFollower) :
  let got := o h (KubeGet name) in
  let read := Ev (KubeGet name) got in
  let '((continue, f'), calls) := run o h (processStack stackId name f) in
  continue = true
  ∧ match got with
    | inr err =>
        calls = [read]
        ∧ f' = (if IsNotFound err then stopFollowing f stackId else f)
    | inl obj =>
        let fetched := o (h ++ [read]) (HelperGetStack obj) in
        match fetched with
        | inr err =>
            calls = [read; Ev (HelperGetStack obj) fetched]
            ∧ f' = (if bool_decide (err = ErrStackNotFound)
                    then stopFollowing f stackId else f)
        | inl cfs =>
            let merged :=
              run o ((h ++ [read]) ++ [Ev (HelperGetStack obj) fetched])
                (updateStackStatus obj [Some cfs]) in
            calls = read :: Ev (HelperGetStack obj) fetched :: merged.2
            ∧ f' = (if bool_decide (merged.1.1 = None)
                       && StackInTerminalState (f_CloudFormationHelper f)
                            (cfs_StackStatus cfs)
                    then stopFollowing f stackId else f)
        end
    end.
Proof.
  cbv zeta. unfold processStack. rewrite run_bind. cbn.
  destruct (o h (KubeGet name)) as [obj | err]; cbn.
  - destruct (o _ (HelperGetStack obj)) as [cfs | err]; cbn.
    + rewrite run_bind.
      destruct (run o _ (updateStackStatus obj [Some cfs])) as [[err obj'] t].
      cbn. destruct err; cbn; [by rewrite app_nil_r|].
      destruct (StackInTerminalState _ _); cbn; by rewrite app_nil_r.
    + by destruct (bool_decide (err = ErrStackNotFound)).
  - by destruct (IsNotFound err).
Qed.

(** ** Further properties: a whole pass *)

Lemma Range_calls_visits (o : oracle) (h : list event)
    (entries : list (string * NamespacedName)) (f : StackFollower) :
  Forall2
    (λ entry visit,
       visit.1 = entry.1
       ∧ ∃ a rest, visit.2 = Ev (KubeGet entry.2) a :: rest)
    entries (Range_calls o h entries f).
Proof.
  revert h f. induction entries as [| [k v] entries IH]; intros h f.
  - constructor.
  - cbn [Range_calls].
    assert (∃ a rest, (run o h (processStack k v f)).2
                      = Ev (KubeGet v) a :: rest) as Hfirst.
    { unfold processStack. rewrite run_bind. cbn.
      destruct (run o (h ++ _) _) as [res t]. cbn. by eexists _, _. }
    pose proof (processStack_continue o h k v f) as Hc.
    destruct (run o h (processStack k v f)) as [[c f1] t1].
    cbn in Hc, Hfirst. subst c. constructor; [done | apply IH].
Qed.

(** X17. A pass polls every registered entry exactly once, whatever the
    answers: the entries it visits are those of the registry, each identifier
    once; the calls for an entry begin with the read of its resource; and the
    calls of the pass are those of its entries, in order.  A failure while
    one entry is processed does not keep the others from being polled. *)
Theorem Worker_tick_visits_all (o : oracle) (h : list event)
    (f : StackFollower) :
  let visits := Range_calls o h (map_to_list (mapPollingList f)) f in
  visits.*1 = (map_to_list (mapPollingList f)).*1
  ∧ NoDup visits.*1
  ∧ (∀ stackId, stackId ∈ visits.*1 ↔ stackId ∈ dom (mapPollingList f))
  ∧ Forall2
      (λ entry visit, ∃ a rest, visit.2 = Ev (KubeGet entry.2) a :: rest)
      (map_to_list (mapPollingList f)) visits
  ∧ (run o h (Worker_tick f)).2 = concat visits.*2.
Proof.
  intros visits.
  pose proof (Range_calls_visits o h (map_to_list (mapPollingList f)) f)
    as Hvisits.
  fold visits in Hvisits.
  assert (visits.*1 = (map_to_list (mapPollingList f)).*1) as Hkeys.
  { clear -Hvisits. induction Hvisits as [| e v es vs [He _] _ IH]; [done|].
    cbn. by rewrite He, IH. }
  split_and!.
  - done.
  - rewrite Hkeys. apply NoDup_fst_map_to_list.
  - intros stackId. rewrite Hkeys, list_elem_of_fmap. split.
    + intros ([k v] & -> & Hin). apply elem_of_map_to_list in Hin.
      apply elem_of_dom. by eexists.
    + intros [v Hv]%elem_of_dom. exists (stackId, v). split; [done|].
      by apply elem_of_map_to_list.
  - eapply Forall2_impl; [exact Hvisits | by intros ? ? [_ ?]].
  - apply Range_calls_concat.
Qed.

Lemma processStack_metrics (o : oracle) (h : list event) (stackId : string)
    (name : NamespacedName) (f : StackFollower) :
  mapPollingList f !! stackId = Some name →
  let f' := (run o h (processStack stackId name f)).1.2 in
  StacksFollowed f' = StacksFollowed f
  ∧ (StacksFollowing f' - Z.of_nat (size (mapPollingList f'))
     = StacksFollowing f - Z.of_nat (size (mapPollingList f)))%Z
  ∧ mapPollingList f' ⊆ mapPollingList f
  ∧ (∀ k, k ≠ stackId → mapPollingList f' !! k = mapPollingList f !! k).
Proof.
  intros Hin. cbv zeta.
  pose proof (processStack_result o h stackId name f) as H.
  destruct (run o h (processStack stackId name f)) as [[c f'] t].
  destruct H as [_ [-> | ->]]; cbn; [done|].
  split_and!; [done | | apply delete_subseteq |].
  - assert (size (mapPollingList f)
            = S (size (delete stackId (mapPollingList f)))) as ->; [|lia].
    rewrite <- (insert_delete_id (mapPollingList f) stackId name) at 1 by done.
    apply map_size_insert_None, lookup_delete_eq.
  - intros k Hk. by apply lookup_delete_ne.
Qed.

Lemma Range_metrics (o : oracle) (h : list event)
    (entries : list (string * NamespacedName)) (f : StackFollower) :
  NoDup entries.*1 →
  (∀ k v, (k, v) ∈ entries → mapPollingList f !! k = Some v) →
  let f' := (run o h (Range entries processStack f)).1 in
  StacksFollowed f' = StacksFollowed f
  ∧ (StacksFollowing f' - Z.of_nat (size (mapPollingList f'))
     = StacksFollowing f - Z.of_nat (size (mapPollingList f)))%Z
  ∧ mapPollingList f' ⊆ mapPollingList f.
Proof.
  revert h f. induction entries as [| [k v] entries IH]; intros h f Hnodup Hin.
  - done.
  - cbv zeta. rewrite run_Range_cons.
    apply NoDup_cons in Hnodup as [Hk Hnodup].
    destruct (processStack_metrics o h k v f) as (Hc & Hg & Hsub & Hother).
    { apply Hin. left. }
    destruct (run o h (processStack k v f)) as [[c f1] t1]. cbn in *.
    destruct (IH (h ++ t1) f1 Hnodup) as (Hc' & Hg' & Hsub').
    { intros k' v' Hin'. rewrite Hother.
      - apply Hin. by right.
      - intros ->. apply Hk.
        by apply (list_elem_of_fmap_2 fst _ (k, v')). }
    destruct (run o (h ++ t1) (Range entries processStack f1)) as [f2 t2].
    cbn in *. split_and!; [congruence | lia | by etrans].
Qed.

(** X15. The metrics across passes of the poll worker.  Whatever the
    answers and however many passes: the counter of stacks followed is not
    touched; the gauge of stacks being followed drops by exactly the number of
    entries that left the registry; and the registry only loses entries, the
    ones that stay keep their resource. *)
Theorem Worker_metrics (o : oracle) (h : list event) (ticks : nat)
    (f : StackFollower) :
  let f' := (run o h (Worker ticks f)).1 in
  StacksFollowed f' = StacksFollowed f
  ∧ (StacksFollowing f' - Z.of_nat (size (mapPollingList f'))
     = StacksFollowing f - Z.of_nat (size (mapPollingList f)))%Z
  ∧ mapPollingList f' ⊆ mapPollingList f.
Proof.
  revert h f. induction ticks as [| n IH]; intros h f; [done|].
  cbv zeta. cbn [Worker]. rewrite run_bind. unfold Worker_tick.
  destruct (Range_metrics o h (map_to_list (mapPollingList f)) f)
    as (Hc & Hg & Hsub).
  { apply NoDup_fst_map_to_list. }
  { intros k v. apply elem_of_map_to_list. }
  destruct (run o h (Range _ processStack f)) as [f1 t1]. cbn in *.
  destruct (IH (h ++ t1) f1) as (Hc' & Hg' & Hsub').
  destruct (run o (h ++ t1) (Worker n f1)) as [f2 t2].
  cbn in *. split_and!; [congruence | lia | by etrans].
Qed.

(** ** Further properties: the status merge *)

Lemma foldl_insert_output_app (m : gmap string string)
    (before : list cfOutput) (output : cfOutput) :
  foldl (λ outputs output, <[OutputKey output := OutputValue output]> outputs)
    m (before ++ [output])
  = <[OutputKey output := OutputValue output]>
      (foldl (λ outputs output,
                <[OutputKey output := OutputValue output]> outputs) m before).
Proof. by rewrite foldl_app. Qed.

Lemma foldl_insert_output_lookup_ne (m : gmap string string)
    (outputs : list cfOutput) (k : string) :
  k ∉ OutputKey <$> outputs →
  foldl (λ outputs output, <[OutputKey output := OutputValue output]> outputs)
    m outputs !! k = m !! k.
Proof.
  revert m. induction outputs as [| output outputs IH]; intros m Hk; [done|].
  cbn in *. apply not_elem_of_cons in Hk as [Hne Hk].
  rewrite IH by done. by rewrite lookup_insert_ne.
Qed.

Lemma foldl_insert_output_dom (m : gmap string string)
    (outputs : list cfOutput) :
  dom (foldl (λ outputs output,
                <[OutputKey output := OutputValue output]> outputs) m outputs)
  = dom m ∪ list_to_set (OutputKey <$> outputs).
Proof.
  revert m. induction outputs as [| output outputs IH]; intros m; cbn.
  - set_solver.
  - rewrite IH, dom_insert_L. set_solver.
Qed.

Lemma foldl_insert_output_size (m : gmap string string)
    (outputs : list cfOutput) :
  NoDup (OutputKey <$> outputs) →
  (∀ k, k ∈ OutputKey <$> outputs → m !! k = None) →
  size (foldl (λ outputs output,
                 <[OutputKey output := OutputValue output]> outputs) m outputs)
  = size m + length outputs.
Proof.
  revert m. induction outputs as [| output outputs IH]; intros m Hnodup Hfresh.
  - cbn. lia.
  - cbn in *. apply NoDup_cons in Hnodup as [Hk Hnodup].
    rewrite IH; [|done|].
    + rewrite map_size_insert_None; [lia|]. apply Hfresh. left.
    + intros k Hin. rewrite lookup_insert_ne.
      * apply Hfresh. by right.
      * by intros <-.
Qed.

(** X23. The output map built from the outputs of the remote stack: its
    keys are the output keys; a key maps to the value of its last output, so a
    later output overwrites an earlier one with the same key; and when no key
    repeats the map has one entry per output. *)
Theorem buildOutputs_lookup (cfs : cfStack) :
  dom (buildOutputs cfs) = list_to_set (OutputKey <$> cfs_Outputs cfs)
  ∧ (∀ before output after,
       cfs_Outputs cfs = before ++ output :: after →
       OutputKey output ∉ OutputKey <$> after →
       buildOutputs cfs !! OutputKey output = Some (OutputValue output))
  ∧ (∀ k, k ∉ OutputKey <$> cfs_Outputs cfs → buildOutputs cfs !! k = None)
  ∧ (NoDup (OutputKey <$> cfs_Outputs cfs) →
     size (buildOutputs cfs) = length (cfs_Outputs cfs)
     ∧ map_to_list (buildOutputs cfs) ≡ₚ outputPair <$> cfs_Outputs cfs).
Proof.
  unfold buildOutputs. split_and!.
  - rewrite foldl_insert_output_dom. set_solver.
  - intros before output after -> Hlast.
    rewrite (assoc_L _ before [output] after : before ++ output :: after
                                               = (before ++ [output]) ++ after).
    rewrite foldl_app, foldl_insert_output_lookup_ne by done.
    by rewrite foldl_insert_output_app, lookup_insert_eq.
  - intros k Hk. by rewrite foldl_insert_output_lookup_ne.
  - intros Hnodup.
    assert (size (foldl (λ outputs output,
                           <[OutputKey output := OutputValue output]> outputs)
                    (∅ : gmap string string) (cfs_Outputs cfs))
            = length (cfs_Outputs cfs)) as Hsize.
    { rewrite foldl_insert_output_size; [by rewrite map_size_empty|done|done]. }
    split; [done|].
    apply NoDup_Permutation.
    + apply NoDup_map_to_list.
    + apply (NoDup_fmap_1 fst). by rewrite <- list_fmap_compose.
    + intros [k v]. rewrite elem_of_map_to_list, list_elem_of_fmap. split.
      * intros Hlookup.
        destruct (decide (k ∈ OutputKey <$> cfs_Outputs cfs)) as [Hin | Hnot].
        2:{ by rewrite foldl_insert_output_lookup_ne in Hlookup. }
        apply list_elem_of_fmap in Hin as (output & -> & Hin).
        apply list_elem_of_split in Hin as (before & after & Hsplit).
        exists output. split; [|rewrite Hsplit; set_solver].
        rewrite Hsplit in Hlookup, Hnodup.
        rewrite fmap_app, fmap_cons in Hnodup.
        apply NoDup_app in Hnodup as (_ & _ & Hnodup).
        apply NoDup_cons in Hnodup as [Hlast _].
        rewrite (assoc_L _ before [output] after
                 : before ++ output :: after = (before ++ [output]) ++ after)
          in Hlookup.
        rewrite foldl_app, foldl_insert_output_lookup_ne in Hlookup by done.
        rewrite foldl_insert_output_app, lookup_insert_eq in Hlookup.
        unfold outputPair. congruence.
      * intros (output & [= -> ->] & Hin).
        apply list_elem_of_split in Hin as (before & after & Hsplit).
        rewrite Hsplit in Hnodup |- *.
        rewrite fmap_app, fmap_cons in Hnodup.
        apply NoDup_app in Hnodup as (_ & _ & Hnodup).
        apply NoDup_cons in Hnodup as [Hlast _].
        rewrite (assoc_L _ before [output] after
                 : before ++ output :: after = (before ++ [output]) ++ after).
        rewrite foldl_app, foldl_insert_output_lookup_ne by done.
        by rewrite foldl_insert_output_app, lookup_insert_eq.
Qed.

Lemma mergeResources_fields (resources : slice StackResource) (m : merge) :
  status_Resources (Status (merged (mergeResources resources m))) = resources
  ∧ status_StackStatus (Status (merged (mergeResources resources m)))
    = status_StackStatus (Status (merged m))
  ∧ status_StackID (Status (merged (mergeResources resources m)))
    = status_StackID (Status (merged m))
  ∧ status_CreatedTime (Status (merged (mergeResources resources m)))
    = status_CreatedTime (Status (merged m))
  ∧ status_UpdatedTime (Status (merged (mergeResources resources m)))
    = status_UpdatedTime (Status (merged m))
  ∧ sameButStatus (merged (mergeResources resources m)) (merged m).
Proof.
  unfold mergeResources, DeepEqual_resources, sameButStatus.
  case_bool_decide; cbn; split_and!; done.
Qed.

Lemma mergeBeforeResources_times (obj : Stack) (cfs : cfStack) :
  let st := Status (merged (mergeBeforeResources obj cfs)) in
  if bool_decide (cfs_StackStatus cfs = status_StackStatus (Status obj))
  then status_CreatedTime st = status_CreatedTime (Status obj)
       ∧ status_UpdatedTime st = status_UpdatedTime (Status obj)
  else status_CreatedTime st = Some (cfs_CreationTime cfs)
       ∧ status_UpdatedTime st
         = match cfs_LastUpdatedTime cfs with
           | Some t => Some t
           | None => status_UpdatedTime (Status obj)
           end.
Proof. cbv zeta. merge_cases. Qed.

Lemma mergeBeforeResources_frame (obj : Stack) (cfs : cfStack) :
  sameButStatus (merged (mergeBeforeResources obj cfs)) obj.
Proof. unfold sameButStatus. merge_cases. Qed.

(** The object a merge returns when the stack is supplied and the resources
    are fetched. *)
Lemma updateStackStatus_returned (o : oracle) (h : list event) (obj : Stack)
    (cfs : cfStack) (rest : list (option cfStack))
    (resources : slice StackResource) :
  o h (HelperGetStackResources (cfs_StackId cfs)) = inl resources →
  (run o h (updateStackStatus obj (Some cfs :: rest))).1.2
  = merged (mergeResources resources (mergeBeforeResources obj cfs)).
Proof.
  intros Hfetch. rewrite run_updateStackStatus. cbv zeta.
  rewrite mergeBeforeResources_StackID, Hfetch.
  by destruct (update _).
Qed.

(** X21. What a merge with the resources fetched leaves in the status: the
    lifecycle status, the identifier and the resource list of the remote
    stack, and its role ARN, empty when it has none.  The creation and update
    times are touched only when the lifecycle status differed from the stored
    one: then the creation time is the remote one, and the update time is the
    remote one when there is one and the stored one otherwise. *)
Theorem updateStackStatus_mirrors_remote (o : oracle) (h : list event)
    (obj : Stack) (cfs : cfStack) (rest : list (option cfStack))
    (resources : slice StackResource) :
  o h (HelperGetStackResources (cfs_StackId cfs)) = inl resources →
  let st := Status (run o h (updateStackStatus obj (Some cfs :: rest))).1.2 in
  status_StackStatus st = cfs_StackStatus cfs
  ∧ status_StackID st = cfs_StackId cfs
  ∧ status_RoleARN st = remoteRoleARN cfs
  ∧ status_Resources st = resources
  ∧ (cfs_StackStatus cfs = status_StackStatus (Status obj) →
     status_CreatedTime st = status_CreatedTime (Status obj)
     ∧ status_UpdatedTime st = status_UpdatedTime (Status obj))
  ∧ (cfs_StackStatus cfs ≠ status_StackStatus (Status obj) →
     status_CreatedTime st = Some (cfs_CreationTime cfs)
     ∧ status_UpdatedTime st
       = match cfs_LastUpdatedTime cfs with
         | Some t => Some t
         | None => status_UpdatedTime (Status obj)
         end).
Proof.
  intros Hfetch. cbv zeta.
  rewrite (updateStackStatus_returned _ _ _ _ _ _ Hfetch).
  destruct (mergeResources_fields resources (mergeBeforeResources obj cfs))
    as (Hres & Hstatus & Hid & Hcreated & Hupdated & _).
  pose proof (mergeBeforeResources_times obj cfs) as Htimes. cbv zeta in Htimes.
  rewrite Hres, Hstatus, Hid, Hcreated, Hupdated, mergeResources_RoleARN.
  rewrite mergeBeforeResources_StackStatus, mergeBeforeResources_StackID,
    mergeBeforeResources_RoleARN.
  split_and!; try done.
  - intros Heq. by rewrite bool_decide_eq_true_2 in Htimes.
  - intros Hne. by rewrite bool_decide_eq_false_2 in Htimes.
Qed.

(** X18. Merging twice.  After a merge with the resources fetched, a second
    merge of the same remote stack and resources into the returned object
    issues no persistence call, with one exception: when the remote stack has
    no outputs and the stored output map is not the empty map (it is nil, or
    it still holds outputs), the stored map is never brought in line and
    every further merge persists again. *)
Theorem updateStackStatus_second_merge (o : oracle) (h : list event)
    (obj : Stack) (cfs : cfStack) (rest : list (option cfStack))
    (resources : slice StackResource) :
  o h (HelperGetStackResources (cfs_StackId cfs)) = inl resources →
  let obj' := (run o h (updateStackStatus obj (Some cfs :: rest))).1.2 in
  ∀ (o' : oracle) (h' : list event) (rest' : list (option cfStack)),
    o' h' (HelperGetStackResources (cfs_StackId cfs)) = inl resources →
    count isKubeStatusUpdate
      (run o' h' (updateStackStatus obj' (Some cfs :: rest'))).2
    = if bool_decide (buildOutputs cfs = ∅
                      ∧ status_Outputs (Status obj) ≠ Some ∅)
      then 1 else 0.
Proof.
  intros Hfetch obj' o' h' rest' Hfetch'.
  rewrite (updateStackStatus_persists _ _ _ _ _ _ Hfetch').
  subst obj'. rewrite (updateStackStatus_returned _ _ _ _ _ _ Hfetch).
  destruct (mergeResources_fields resources (mergeBeforeResources obj cfs))
    as (Hres & Hstatus & Hid & _).
  unfold flaggedChange, DeepEqual_resources.
  rewrite Hres, Hstatus, Hid, mergeResources_Outputs.
  rewrite mergeBeforeResources_StackStatus, mergeBeforeResources_StackID,
    mergeBeforeResources_Outputs.
  rewrite !(bool_decide_eq_false_2 (_ ≠ _)) by (by intros []).
  rewrite (bool_decide_eq_true_2 (resources = resources)) by done.
  cbn. rewrite orb_false_r. unfold DeepEqual_outputs.
  set (outputs := buildOutputs cfs).
  destruct (decide (outputs = ∅)) as [Hempty | Hfull].
  - rewrite Hempty, map_size_empty.
    rewrite (bool_decide_eq_false_2 (0 < 0)) by lia. rewrite andb_false_r.
    destruct (decide (status_Outputs (Status obj) = Some ∅)) as [Hs | Hs].
    + rewrite Hs. rewrite bool_decide_eq_true_2 by done.
      by rewrite bool_decide_eq_false_2 by (by intros [_ ?]).
    + rewrite (bool_decide_eq_false_2 (Some ∅ = _)) by done.
      by rewrite bool_decide_eq_true_2 by done.
  - rewrite (bool_decide_eq_false_2 (_ ∧ _)) by (by intros [? _]).
    apply map_size_non_empty_iff in Hfull.
    rewrite (bool_decide_eq_true_2 (0 < _)) by lia. rewrite andb_true_r.
    destruct (decide (Some outputs = status_Outputs (Status obj))) as [Hs | Hs].
    + rewrite (bool_decide_eq_true_2 _ Hs). cbn.
      destruct (bool_decide (cfs_StackId cfs ≠ _)); cbn;
        by rewrite bool_decide_eq_true_2 by done.
    + rewrite (bool_decide_eq_false_2 _ Hs). rewrite orb_true_r.
      by rewrite bool_decide_eq_true_2 by done.
Qed.

Lemma run_updateStackStatus_fetch (o : oracle) (h : list event) (obj : Stack)
    (stack_ : list (option cfStack)) :
  match stack_ with s :: _ => s | [] => None end = None →
  run o h (updateStackStatus obj stack_) =
    let fetched := Ev (HelperGetStack obj) (o h (HelperGetStack obj)) in
    match o h (HelperGetStack obj) with
    | inr err => ((Some err, obj), [fetched])
    | inl cfs =>
        let '(res, calls) :=
          run o (h ++ [fetched]) (updateStackStatus obj [Some cfs]) in
        (res, fetched :: calls)
    end.
Proof.
  intros Hnone. unfold updateStackStatus. rewrite Hnone. cbn.
  by destruct (o h (HelperGetStack obj)).
Qed.

(** X20. Without a supplied stack (no argument, or a nil one) the merge
    fetches the remote stack itself, with one call: when that fails the error
    is returned, nothing else is called and the object is untouched; when it
    succeeds the rest is the merge of the fetched stack.  With a supplied
    stack it does not fetch. *)
Theorem updateStackStatus_fetches_when_absent (o : oracle) (h : list event)
    (obj : Stack) (rest : list (option cfStack)) (supplied : cfStack) :
  let fetched := Ev (HelperGetStack obj) (o h (HelperGetStack obj)) in
  let expected :=
    match o h (HelperGetStack obj) with
    | inr err => ((Some err, obj), [fetched])
    | inl cfs =>
        let '(res, calls) :=
          run o (h ++ [fetched]) (updateStackStatus obj [Some cfs]) in
        (res, fetched :: calls)
    end in
  run o h (updateStackStatus obj []) = expected
  ∧ run o h (updateStackStatus obj (None :: rest)) = expected
  ∧ count isHelperGetStack
      (run o h (updateStackStatus obj (Some supplied :: rest))).2 = 0.
Proof.
  cbv zeta. split_and!.
  - by apply run_updateStackStatus_fetch.
  - by apply run_updateStackStatus_fetch.
  - rewrite run_updateStackStatus. cbv zeta.
    destruct (o h (HelperGetStackResources _)); [|count_log].
    destruct (update _); count_log.
Qed.

(** X22. A merge changes the status of the resource and nothing else: the
    name, the namespace, the UID, the deletion timestamp, the finalizers and
    the spec of the object it returns are those of the object it was given,
    on every path, the failing ones included. *)
Theorem updateStackStatus_frame (o : oracle) (h : list event) (obj : Stack)
    (stack_ : list (option cfStack)) :
  sameButStatus (run o h (updateStackStatus obj stack_)).1.2 obj.
Proof.
  assert (∀ h cfs rest,
            sameButStatus
              (run o h (updateStackStatus obj (Some cfs :: rest))).1.2 obj)
    as Hsupplied.
  { intros h0 cfs rest. rewrite run_updateStackStatus. cbv zeta.
    pose proof (mergeBeforeResources_frame obj cfs) as Hframe.
    destruct (o h0 (HelperGetStackResources _)) as [resources | err];
      [|done].
    destruct (mergeResources_fields resources (mergeBeforeResources obj cfs))
      as (_ & _ & _ & _ & _ & Hframe').
    assert (sameButStatus
              (merged (mergeResources resources (mergeBeforeResources obj cfs)))
              obj) as Hall.
    { unfold sameButStatus in *. intuition congruence. }
    by destruct (update _). }
  assert (match stack_ with s :: _ => s | [] => None end = None →
          sameButStatus (run o h (updateStackStatus obj stack_)).1.2 obj)
    as Hfetched.
  { intros Hnone. rewrite run_updateStackStatus_fetch by done. cbv zeta.
    destruct (o h (HelperGetStack obj)) as [cfs | err] eqn:Hfetch;
      [|by unfold sameButStatus].
    pose proof (Hsupplied (h ++ [Ev (HelperGetStack obj) (inl cfs)]) cfs [])
      as Hframe.
    by destruct (run o _ (updateStackStatus obj [Some cfs])). }
  destruct stack_ as [| [cfs|] rest];
    [by apply Hfetched | apply Hsupplied | by apply Hfetched].
Qed.

(** X19. The failures of a merge.  When the resources cannot be fetched
    the error is returned and nothing is persisted, even though fields were
    already overwritten in memory.  When the persistence call fails with a
    not-found error the merge returns no error; any other error of that call
    is returned. *)
Theorem updateStackStatus_error_paths (o : oracle) (h : list event)
    (obj : Stack) (cfs : cfStack) (rest : list (option cfStack)) :
  let fetch := HelperGetStackResources (cfs_StackId cfs) in
  let merge := run o h (updateStackStatus obj (Some cfs :: rest)) in
  (∀ err, o h fetch = inr err →
          merge.1.1 = Some err
          ∧ merge.2 = [Ev fetch (inr err)]
          ∧ count isKubeStatusUpdate merge.2 = 0)
  ∧ (∀ resources, o h fetch = inl resources →
       flaggedChange obj cfs resources = true →
       let persisted :=
         o (h ++ [Ev fetch (inl resources)]) (KubeStatusUpdate merge.1.2) in
       merge.2 = [Ev fetch (inl resources);
                  Ev (KubeStatusUpdate merge.1.2) persisted]
       ∧ merge.1.1
         = match persisted with
           | Some e => if IsNotFound e then None else Some e
           | None => None
           end).
Proof.
  cbv zeta. rewrite run_updateStackStatus. cbv zeta.
  rewrite mergeBeforeResources_StackID. split.
  - intros err ->. split_and!; [done | done | count_log].
  - intros resources -> Hflag. rewrite mergeResources_update, Hflag. by cbn.
Qed.

(** ** Further properties: the existence check *)

(** X25. The existence check answers true exactly when the remote stack is
    found and its status is not DELETE_COMPLETE, and then the pass holds that
    stack, so that its status can be read afterwards; it never answers true
    together with an error; a lookup that reports "not found" gives false
    without an error, any other lookup error gives false with that error; and
    the resource of the pass is not touched. *)
Theorem stackExists_answers (o : oracle) (h : list event)
    (r : StackReconciler) (loop : StackLoop) :
  let seen := seenStack o h loop in
  let '(((exists_, err), loop'), calls) := run o h (stackExists r loop) in
  (exists_ = true ↔
     ∃ s, seen = inl s ∧ cfs_StackStatus s ≠ "DELETE_COMPLETE")
  ∧ (exists_ = true → err = None ∧ ∃ s, seen = inl s ∧ stack loop' = Some s)
  ∧ err = lookupError seen
  ∧ (doesNotExist seen = true → exists_ = false ∧ err = None)
  ∧ instance loop' = instance loop
  ∧ calls = lookupCalls o h loop.
Proof.
  rewrite run_stackExists. cbv zeta. unfold lookupError, afterLookup.
  destruct (seenStack o h loop) as [s | e] eqn:Hseen; cbn.
  - destruct (decide (cfs_StackStatus s = "DELETE_COMPLETE")) as [Hd | Hd].
    + rewrite (bool_decide_eq_true_2 _ Hd). cbn. split_and!; try done.
      split; [done|]. by intros (s' & [= <-] & ?).
    + rewrite (bool_decide_eq_false_2 _ Hd). cbn. split_and!; try done.
      * split; [by eauto|done].
      * intros _. split; [done | by eauto].
  - split_and!; try done.
    + split; [done | by intros (? & [=] & _)].
    + by intros ->.
Qed.

End Controller.

(** ** The model at work *)

Example strings_Contains_examples :
  strings_Contains "Stack with id demo-7c1e does not exist" "does not exist"
  = true
  ∧ strings_Contains "does not exis" "does not exist" = false
  ∧ strings_Contains "" "" = true
  ∧ strings_Contains "ValidationError: No updates are to be performed."
      "No updates are to be performed." = true.
Proof. by vm_compute. Qed.

(** A new resource with a template body: one CreateStack call, the
    identifier handed to the follower. *)
Example Reconcile_creates :
  let o :=
    constant (StackResource := string)
      (sampleAnswers (inl (liveStack "Resources: {}" "" None))
         (inr (OtherError false "Stack with id demo-7c1e does not exist"))
         None) in
  let '(res, calls) :=
    run o [] (Reconcile "stack not found" (sampleReconciler false) sampleName) in
  res = (ctrl_Result, None)
  ∧ callee <$> calls
    = ["Client.Get"; "GetStack"; "GetStackName"; "CreateStack";
       "SubmissionChannel"].
Proof. by vm_compute. Qed.

(** An owned stack that is still in progress: handed to the follower, no
    mutating call. *)
Example Reconcile_hands_off :
  let o :=
    constant (StackResource := string)
      (sampleAnswers (inl (liveStack "Resources: {}" "" None))
         (inl (sampleRemote "UPDATE_IN_PROGRESS" [] None [ownershipTag]))
         None) in
  let '(res, calls) :=
    run o [] (Reconcile "stack not found" (sampleReconciler false) sampleName) in
  res = (ctrl_Result, None)
  ∧ callee <$> calls = ["Client.Get"; "GetStack"; "SubmissionChannel"].
Proof. by vm_compute. Qed.

(** An owned stack at rest: update logic. *)
Example Reconcile_updates :
  let o :=
    constant (StackResource := string)
      (sampleAnswers (inl (liveStack "Resources: {}" "" None))
         (inl (sampleRemote "CREATE_COMPLETE" [] None [ownershipTag]))
         None) in
  let '(res, calls) :=
    run o [] (Reconcile "stack not found" (sampleReconciler false) sampleName) in
  res = (ctrl_Result, None)
  ∧ callee <$> calls
    = ["Client.Get"; "GetStack"; "GetStackName"; "UpdateStack";
       "SubmissionChannel"].
Proof. by vm_compute. Qed.

(** A followed stack that the remote side no longer knows: the entry goes,
    the gauge drops, the counter stays. *)
Example Worker_tick_not_found :
  let o :=
    constant (StackResource := string)
      (sampleAnswers (inl (liveStack "Resources: {}" "" None))
         (inr ErrStackNotFound) None) in
  let '(f, calls) := run o [] (Worker_tick sampleFollower) in
  mapPollingList f = ∅
  ∧ StacksFollowing f = 0%Z ∧ StacksFollowed f = 4%Z
  ∧ callee <$> calls = ["Client.Get"; "GetStack"].
Proof. by vm_compute. Qed.

(** A followed stack still in progress is polled on every pass. *)
Example Worker_keeps_polling :
  let o :=
    constant (StackResource := string)
      (sampleAnswers (inl (liveStack "Resources: {}" "" None))
         (inl (sampleRemote "CREATE_IN_PROGRESS" [] None [ownershipTag]))
         None) in
  let '(f, calls) := run o [] (Worker 2 sampleFollower) in
  mapPollingList f = mapPollingList sampleFollower
  ∧ callee <$> calls
    = ["Client.Get"; "GetStack"; "GetStackResources"; "Client.Status.Update";
       "Client.Get"; "GetStack"; "GetStackResources"; "Client.Status.Update"].
Proof. by vm_compute. Qed.

(** ** The theorems at concrete inputs *)

(** A role ARN that changed alone: the status, the identifier, the one
    output and the one resource are as recorded. *)
Lemma updateStackStatus_role_arn_alone_witness :
  let resources : slice string := Some ["AWS::S3::Bucket demo-bucket"] in
  let obj :=
    recordedStack (Some {[ "Endpoint" := "https://demo.example.com" ]}) ""
      resources in
  let cfs :=
    sampleRemote "CREATE_COMPLETE" [sampleOutput]
      (Some "arn:aws:iam::111122223333:role/deploy") [ownershipTag] in
  let '((err, obj'), calls) :=
    run (constant (withResources (inl resources)
                     (sampleAnswers (inl obj) (inl cfs) None))) []
      (updateStackStatus obj [Some cfs]) in
  err = None
  ∧ calls = [Ev (HelperGetStackResources sampleStackID) (inl resources)]
  ∧ count isKubeStatusUpdate calls = 0
  ∧ status_RoleARN (Status obj') = "arn:aws:iam::111122223333:role/deploy"
  ∧ status_RoleARN (Status obj') ≠ status_RoleARN (Status obj).
Proof.
  cbv zeta.
  apply (updateStackStatus_role_arn_alone
           (constant
              (withResources (inl (Some ["AWS::S3::Bucket demo-bucket"]))
                 (sampleAnswers
                    (inl (recordedStack
                            (Some {[ "Endpoint" := "https://demo.example.com" ]})
                            "" (Some ["AWS::S3::Bucket demo-bucket"])))
                    (inl (sampleRemote "CREATE_COMPLETE" [sampleOutput]
                            (Some "arn:aws:iam::111122223333:role/deploy")
                            [ownershipTag])) None)))
           []
           (recordedStack (Some {[ "Endpoint" := "https://demo.example.com" ]})
              "" (Some ["AWS::S3::Bucket demo-bucket"]))
           (sampleRemote "CREATE_COMPLETE" [sampleOutput]
              (Some "arn:aws:iam::111122223333:role/deploy") [ownershipTag])
           [] (Some ["AWS::S3::Bucket demo-bucket"]));
    [reflexivity | reflexivity | reflexivity | reflexivity | reflexivity
    | discriminate].
Defined.

(** Create logic, dry-run off, neither template nor reference. *)
Lemma createStack_template_check_witness :
  run (StackResource := string)
    (constant (sampleAnswers (inl (liveStack "" "" None))
                 (inr ErrStackNotFound) None))
    [] (createStack (sampleReconciler false)
          (sampleLoop (liveStack "" "" None)))
  = ((Some ErrMissingTemplateSpec, sampleLoop (liveStack "" "" None)),
     [Ev (HelperGetStackName (liveStack "" "" None) false) "demo-7c1e"]).
Proof.
  refine (proj1 (proj1
    (createStack_template_check
       (constant (sampleAnswers (inl (liveStack "" "" None))
                    (inr ErrStackNotFound) None))
       [] (sampleReconciler false) (sampleLoop (liveStack "" "" None)) _)
    _ _)); reflexivity.
Defined.

(** C2 as stated fails: with both the template body and the reference set,
    create logic raises no error and issues the CreateStack call; and in
    dry-run mode it returns success even with neither set. *)
Lemma createStack_both_set_counterexample :
  let both := liveStack "Resources: {}" "https://s3.example.com/t.yaml" None in
  let neither := liveStack "" "" None in
  let o :=
    constant (StackResource := string)
      (sampleAnswers (inl both) (inr ErrStackNotFound) None) in
  spec_Template (Spec both) ≠ "" ∧ spec_TemplateUrl (Spec both) ≠ ""
  ∧ (run o [] (createStack (sampleReconciler false) (sampleLoop both))).1.1
    = None
  ∧ count isCfCreateStack
      (run o [] (createStack (sampleReconciler false) (sampleLoop both))).2 = 1
  ∧ spec_Template (Spec neither) = "" ∧ spec_TemplateUrl (Spec neither) = ""
  ∧ (run o [] (createStack (sampleReconciler true) (sampleLoop neither))).1.1
    = None.
Proof. cbv zeta. split_and!; by vm_compute. Qed.

(** A pass for a resource under deletion whose stack is deleted already. *)
Lemma Reconcile_marked_for_deletion_witness :
  ∃ obj' : Stack (StackResource := string),
    run (constant (sampleAnswers (inl (markedStack "DELETE_COMPLETE"))
                     (inr ErrStackNotFound) None))
      [] (Reconcile "stack not found" (sampleReconciler false) sampleName)
    = ((ctrl_Result, None),
       [Ev (KubeGet sampleName) (inl (markedStack "DELETE_COMPLETE"));
        Ev (KubeUpdate obj') None])
    ∧ (stacksFinalizer ∉ Finalizers obj')
    ∧ (legacyFinalizer ∉ Finalizers obj').
Proof.
  destruct (Reconcile_marked_for_deletion "stack not found"
              (constant (sampleAnswers (inl (markedStack "DELETE_COMPLETE"))
                           (inr ErrStackNotFound) None))
              [] (sampleReconciler false) sampleName
              (markedStack (StackResource := string) "DELETE_COMPLETE")
              eq_refl (ex_intro _ _ eq_refl)
              (or_introl (list_elem_of_here _ _)))
    as [Hfinalize _].
  destruct (Hfinalize (or_introl eq_refl))
    as (obj' & Hrun & Hcurrent & Hlegacy & _).
  exists obj'. split_and!; [exact Hrun | exact Hcurrent | exact Hlegacy].
Defined.

(** An update that changes nothing. *)
Lemma updateStack_no_updates_witness :
  let obj := liveStack (StackResource := string) "Resources: {}" "" None in
  let o :=
    constant (sampleAnswers (inl obj)
                (inl (sampleRemote "CREATE_COMPLETE" [] None [ownershipTag]))
                (Some noUpdates)) in
  let p := updateStack "stack not found" (sampleReconciler false) (sampleLoop obj) in
  ∃ (name : string) (input : UpdateStackInput) (failure : error)
    (refreshed : option error * Stack),
    strings_Contains (Error "stack not found" failure)
      "No updates are to be performed." = true
    ∧ run o [] p
      = ((refreshed.1, set_instance refreshed.2 (sampleLoop obj)),
         [Ev (HelperGetStackName obj true) name;
          Ev (CfUpdateStack input) (Some failure);
          Ev (FollowerUpdateStackStatus obj) refreshed])
    ∧ count isChanSend (run o [] p).2 = 0
    ∧ count isFollowerUpdateStackStatus (run o [] p).2 = 1.
Proof.
  cbv zeta.
  apply (updateStack_no_updates "stack not found"
           (constant (sampleAnswers
                        (inl (liveStack (StackResource := string)
                                "Resources: {}" "" None))
                        (inl (sampleRemote "CREATE_COMPLETE" [] None
                                [ownershipTag])) (Some noUpdates)))
           [] (sampleReconciler false)
           (sampleLoop (liveStack "Resources: {}" "" None))).
  vm_compute. reflexivity.
Defined.

(** A stack that somebody else owns. *)
Lemma deleteStack_not_owned_witness :
  let '((err, _), calls) :=
    run (StackResource := string)
      (constant (sampleAnswers (inl (markedStack "CREATE_COMPLETE"))
                   (inl foreignRemote) None))
      [] (deleteStack "stack not found" (sampleReconciler false)
            (sampleLoop (markedStack "CREATE_COMPLETE"))) in
  err = None ∧ count isCfDeleteStack calls = 0 ∧ count isChanSend calls = 0.
Proof.
  apply (deleteStack_not_owned "stack not found"
           (constant (sampleAnswers (inl (markedStack "CREATE_COMPLETE"))
                        (inl foreignRemote) None))
           [] (sampleReconciler false)
           (sampleLoop (markedStack "CREATE_COMPLETE")) foreignRemote);
    [reflexivity | discriminate |].
  intros Hin. apply list_elem_of_singleton in Hin. discriminate.
Defined.

(** Stored outputs that the remote stack no longer has: flagged, persisted
    once, and kept. *)
Lemma updateStackStatus_outputs_differ_witness :
  let stored : gmap string string :=
    {[ "Endpoint" := "https://demo.example.com" ]} in
  let obj := liveStack (StackResource := string) "Resources: {}" "" (Some stored) in
  let cfs := sampleRemote "CREATE_COMPLETE" [] None [ownershipTag] in
  let '((_, obj'), calls) :=
    run (constant (sampleAnswers (inl obj) (inl cfs) None)) []
      (updateStackStatus obj [Some cfs]) in
  status_Outputs (Status obj') = Some stored
  ∧ count isKubeStatusUpdate calls = 1.
Proof.
  cbv zeta.
  pose proof (updateStackStatus_outputs_differ
                (constant (sampleAnswers
                             (inl (liveStack (StackResource := string)
                                     "Resources: {}" ""
                                     (Some {[ "Endpoint" :=
                                                "https://demo.example.com" ]})))
                             (inl (sampleRemote "CREATE_COMPLETE" [] None
                                     [ownershipTag])) None))
                [] (liveStack "Resources: {}" ""
                      (Some {[ "Endpoint" := "https://demo.example.com" ]}))
                (sampleRemote "CREATE_COMPLETE" [] None [ownershipTag]) [])
    as Hmerge.
  cbv zeta in Hmerge.
  destruct (run _ [] (updateStackStatus _ _)) as [[err obj'] calls].
  destruct Hmerge as (_ & Hkept & Hreturned & Hpersisted).
  { intros Heq. by vm_compute in Heq. }
  split.
  - rewrite Hreturned, Hkept. reflexivity.
  - by apply (Hpersisted (Some [])).
Defined.

(** One followed stack that has reached CREATE_COMPLETE. *)
Lemma Worker_tick_terminal_witness :
  let obj := liveStack (StackResource := string) "Resources: {}" "" None in
  let cfs := sampleRemote "CREATE_COMPLETE" [] None [ownershipTag] in
  let o := constant (sampleAnswers (inl obj) (inl cfs) None) in
  let f' := (run o [] (Worker_tick sampleFollower)).1 in
  (sampleStackID ∉ dom (mapPollingList f'))
  ∧ (∀ (o' : @oracle string) (h' : list event) (ticks : nat),
       (sampleStackID
          ∉ dom (mapPollingList
                   (run o' h' (Worker ticks f')).1))
       ∧ (sampleStackID ∉ (Worker_calls o' h' ticks f').*1)
       ∧ (run o' h' (Worker ticks f')).2
         = concat (Worker_calls o' h' ticks f').*2).
Proof.
  cbv zeta.
  apply (Worker_tick_terminal
           (constant (sampleAnswers
                        (inl (liveStack (StackResource := string)
                                "Resources: {}" "" None))
                        (inl (sampleRemote "CREATE_COMPLETE" [] None
                                [ownershipTag])) None))
           [] sampleFollower sampleStackID sampleName [] []
           (liveStack "Resources: {}" "" None)
           (sampleRemote "CREATE_COMPLETE" [] None [ownershipTag]));
    [apply map_to_list_singleton | reflexivity | reflexivity
    | vm_compute; reflexivity | vm_compute; reflexivity].
Defined.

(** Delete logic and a whole pass in dry-run mode. *)
Lemma deleteStack_dry_run_witness :
  let obj := markedStack (StackResource := string) "CREATE_COMPLETE" in
  let o := constant (sampleAnswers (inl obj) (inl foreignRemote) None) in
  run o [] (deleteStack "stack not found" (sampleReconciler true) (sampleLoop obj))
  = ((None, sampleLoop obj), [])
  ∧ run o [] (Reconcile "stack not found" (sampleReconciler true) sampleName)
    = ((ctrl_Result, None), [Ev (KubeGet sampleName) (inl obj)]).
Proof.
  cbv zeta.
  destruct (deleteStack_dry_run "stack not found"
              (constant (sampleAnswers
                           (inl (markedStack (StackResource := string)
                                   "CREATE_COMPLETE"))
                           (inl foreignRemote) None))
              [] (sampleReconciler true)
              (sampleLoop (markedStack "CREATE_COMPLETE")) sampleName
              (markedStack "CREATE_COMPLETE") eq_refl)
    as [Hdelete Hpass].
  split; [exact Hdelete|].
  apply Hpass;
    [reflexivity | by eexists | left; apply list_elem_of_here
    | discriminate | discriminate].
Defined.

(** ** The further properties at concrete inputs *)

Lemma Reconcile_get_fails_witness :
  run (StackResource := string)
    (constant (sampleAnswers (inr goneError) (inr ErrStackNotFound) None)) []
    (Reconcile "stack not found" (sampleReconciler false) sampleName)
  = ((ctrl_Result, None), [Ev (KubeGet sampleName) (inr goneError)]).
Proof.
  exact (Reconcile_get_fails "stack not found"
           (constant (sampleAnswers (inr goneError) (inr ErrStackNotFound) None))
           [] (sampleReconciler false) sampleName goneError eq_refl).
Defined.

Lemma Reconcile_adds_finalizer_witness :
  run (StackResource := string)
    (constant (sampleAnswers (inl freshStack) (inr ErrStackNotFound) None)) []
    (Reconcile "stack not found" (sampleReconciler false) sampleName)
  = ((ctrl_Result, None),
     [Ev (KubeGet sampleName) (inl freshStack);
      Ev (KubeUpdate
            (set_Finalizers [legacyFinalizer; stacksFinalizer] freshStack))
         None]).
Proof.
  refine (Reconcile_adds_finalizer "stack not found"
            (constant (sampleAnswers (inl freshStack) (inr ErrStackNotFound)
                         None))
            [] (sampleReconciler false) sampleName freshStack
            eq_refl eq_refl _).
  intros Hin. apply list_elem_of_singleton in Hin. discriminate.
Defined.

Lemma Reconcile_never_crosses_witness :
  let calls :=
    (run (StackResource := string)
       (constant (sampleAnswers (inl (markedStack "CREATE_COMPLETE"))
                    (inl (ownedRemote "CREATE_COMPLETE")) None)) []
       (Reconcile "stack not found" (sampleReconciler false) sampleName)).2 in
  count isCfCreateStack calls = 0 ∧ count isCfUpdateStack calls = 0.
Proof.
  cbv zeta.
  destruct (Reconcile_never_crosses "stack not found"
              (constant (sampleAnswers
                           (inl (markedStack (StackResource := string)
                                   "CREATE_COMPLETE"))
                           (inl (ownedRemote "CREATE_COMPLETE")) None))
              [] (sampleReconciler false) sampleName
              (markedStack "CREATE_COMPLETE") eq_refl)
    as [Hmarked _].
  destruct (Hmarked (ex_intro _ _ eq_refl)) as (Hcreate & Hupdate & _).
  split; [exact Hcreate | exact Hupdate].
Defined.

Lemma Reconcile_dry_run_witness :
  let calls :=
    (run (StackResource := string)
       (constant (sampleAnswers (inl (liveStack "Resources: {}" "" None))
                    (inl (ownedRemote "CREATE_COMPLETE")) None)) []
       (Reconcile "stack not found" (sampleReconciler true) sampleName)).2 in
  count isMutation calls = 0 ∧ count isFollowerUpdateStackStatus calls = 0.
Proof.
  cbv zeta.
  apply (Reconcile_dry_run "stack not found"
           (constant (sampleAnswers
                        (inl (liveStack (StackResource := string)
                                "Resources: {}" "" None))
                        (inl (ownedRemote "CREATE_COMPLETE")) None))
           [] (sampleReconciler true) sampleName).
  reflexivity.
Defined.

Lemma Reconcile_decision_witness :
  let obj := liveStack (StackResource := string) "Resources: {}" "" None in
  run (constant (sampleAnswers (inl obj) (inl (ownedRemote "UPDATE_IN_PROGRESS"))
                   None)) []
    (Reconcile "stack not found" (sampleReconciler false) sampleName)
  = ((ctrl_Result, None),
     [Ev (KubeGet sampleName) (inl obj);
      Ev (HelperGetStack obj) (inl (ownedRemote "UPDATE_IN_PROGRESS"));
      Ev (ChanSend obj) ()]).
Proof.
  cbv zeta.
  rewrite (Reconcile_decision "stack not found"
             (constant (sampleAnswers
                          (inl (liveStack (StackResource := string)
                                  "Resources: {}" "" None))
                          (inl (ownedRemote "UPDATE_IN_PROGRESS")) None))
             [] (sampleReconciler false) sampleName
             (liveStack "Resources: {}" "" None) eq_refl eq_refl
             (list_elem_of_here _ _)).
  vm_compute. reflexivity.
Defined.

Lemma createStack_outcome_witness :
  let obj := liveStack (StackResource := string) "Resources: {}" "" None in
  let o := constant (sampleAnswers (inl obj) (inr missingRemote) None) in
  let '((err, loop'), calls) :=
    run o [] (createStack (sampleReconciler false) (sampleLoop obj)) in
  err = None
  ∧ status_StackID (Status (instance loop')) = sampleStackID
  ∧ callee <$> calls = ["GetStackName"; "CreateStack"; "SubmissionChannel"].
Proof.
  cbv zeta.
  rewrite (createStack_outcome
             (constant (sampleAnswers
                          (inl (liveStack (StackResource := string)
                                  "Resources: {}" "" None))
                          (inr missingRemote) None))
             [] (sampleReconciler false)
             (sampleLoop (liveStack "Resources: {}" "" None)) eq_refl).
  - vm_compute. split_and!; reflexivity.
  - intros [Htemplate _]. discriminate Htemplate.
Defined.

Lemma updateStack_outcomes_witness :
  let obj := liveStack (StackResource := string) "Resources: {}" "" None in
  let o :=
    constant (sampleAnswers (inl obj) (inl (ownedRemote "CREATE_COMPLETE"))
                (Some accessDenied)) in
  let '((err, loop'), calls) :=
    run o [] (updateStack "stack not found" (sampleReconciler false)
                (sampleLoop obj)) in
  err = Some accessDenied ∧ loop' = sampleLoop obj
  ∧ callee <$> calls = ["GetStackName"; "UpdateStack"].
Proof.
  cbv zeta.
  destruct (updateStack_outcomes "stack not found"
              (constant (sampleAnswers
                           (inl (liveStack (StackResource := string)
                                   "Resources: {}" "" None))
                           (inl (ownedRemote "CREATE_COMPLETE"))
                           (Some accessDenied)))
              [] (sampleReconciler false)
              (sampleLoop (liveStack "Resources: {}" "" None)) eq_refl)
    as [_ Hcalled].
  rewrite Hcalled.
  - vm_compute. split_and!; reflexivity.
  - intros [Htemplate _]. discriminate Htemplate.
Defined.

(** Delete logic for a stack that is gone already: DeleteStack all the
    same. *)
Lemma deleteStack_outcomes_witness :
  let obj := markedStack (StackResource := string) "CREATE_COMPLETE" in
  let o := constant (sampleAnswers (inl obj) (inr missingRemote) None) in
  let '((err, _), calls) :=
    run o [] (deleteStack "stack not found" (sampleReconciler false)
                (sampleLoop obj)) in
  err = None
  ∧ callee <$> calls
    = ["GetStack"; "GetStackName"; "DeleteStack"; "SubmissionChannel"].
Proof.
  cbv zeta.
  rewrite (deleteStack_outcomes "stack not found"
             (constant (sampleAnswers
                          (inl (markedStack (StackResource := string)
                                  "CREATE_COMPLETE"))
                          (inr missingRemote) None))
             [] (sampleReconciler false)
             (sampleLoop (markedStack "CREATE_COMPLETE")) eq_refl).
  vm_compute. split; reflexivity.
Defined.

(** A stack without outputs, and a stored map that is nil: the second merge
    persists again. *)
Lemma updateStackStatus_second_merge_witness :
  let obj := liveStack (StackResource := string) "Resources: {}" "" None in
  let cfs := ownedRemote "CREATE_COMPLETE" in
  let o := constant (sampleAnswers (inl obj) (inl cfs) None) in
  let obj' := (run o [] (updateStackStatus obj [Some cfs])).1.2 in
  count isKubeStatusUpdate (run o [] (updateStackStatus obj' [Some cfs])).2 = 1.
Proof.
  cbv zeta.
  rewrite (updateStackStatus_second_merge
             (constant (sampleAnswers
                          (inl (liveStack (StackResource := string)
                                  "Resources: {}" "" None))
                          (inl (ownedRemote "CREATE_COMPLETE")) None))
             [] (liveStack "Resources: {}" "" None)
             (ownedRemote "CREATE_COMPLETE") [] (Some []) eq_refl
             (constant (sampleAnswers
                          (inl (liveStack (StackResource := string)
                                  "Resources: {}" "" None))
                          (inl (ownedRemote "CREATE_COMPLETE")) None))
             [] [] eq_refl).
  vm_compute. reflexivity.
Defined.

Lemma updateStackStatus_mirrors_remote_witness :
  let obj := liveStack (StackResource := string) "Resources: {}" "" None in
  let cfs :=
    sampleRemote "UPDATE_COMPLETE" [sampleOutput]
      (Some "arn:aws:iam::111122223333:role/deploy") [ownershipTag] in
  let o := constant (sampleAnswers (inl obj) (inl cfs) None) in
  let st := Status (run o [] (updateStackStatus obj [Some cfs])).1.2 in
  status_StackStatus st = "UPDATE_COMPLETE"
  ∧ status_StackID st = sampleStackID
  ∧ status_RoleARN st = "arn:aws:iam::111122223333:role/deploy"
  ∧ status_Resources st = Some [].
Proof.
  cbv zeta.
  destruct (updateStackStatus_mirrors_remote
              (constant (sampleAnswers
                           (inl (liveStack (StackResource := string)
                                   "Resources: {}" "" None))
                           (inl (sampleRemote "UPDATE_COMPLETE" [sampleOutput]
                                   (Some "arn:aws:iam::111122223333:role/deploy")
                                   [ownershipTag])) None))
              [] (liveStack "Resources: {}" "" None)
              (sampleRemote "UPDATE_COMPLETE" [sampleOutput]
                 (Some "arn:aws:iam::111122223333:role/deploy") [ownershipTag])
              [] (Some []) eq_refl)
    as (Hstatus & Hid & Hrole & Hresources & _).
  split_and!; [exact Hstatus | exact Hid | exact Hrole | exact Hresources].
Defined.
